(** * The realtime reconciliation engine of the client (src/client.js)

    A shallow embedding of [Client]'s cache, of its realtime and push
    handlers, of the pre-ready buffer and of the promise continuations the
    handlers schedule, followed by the properties of the engine.

    JavaScript objects that the code shares by reference and mutates in place
    (the [Chat] instances, reachable from [cache.chats], [cache.pendingChats],
    closures and emitted events) live in an explicit heap and are named by
    their location.  Calls of [async] functions and [.then] callbacks are
    modelled by a queue of microtasks, drained when the running macrotask
    ends, and by the list of requests in flight, answered by the transport. *)

From stdpp Require Import base option list strings gmap.

Open Scope string_scope.
Open Scope list_scope.
Open Scope nat_scope.

(** ** Entities *)

Definition loc := nat.

Inductive Error :=
| SyntaxError   (* JSON.parse on a text that is not JSON *)
| TypeError     (* a property read on undefined *)
| RequestError. (* a request of the private API rejected *)

(** Modelled from the spec: [User] (User.js is not under src/): an id and its
    display attributes, created from a user payload and patch-merged. *)
Record UserPayload := { pk : string; pk_username : string }.
Record User := { user_id : string; username : string }.

Definition User_new (p : UserPayload) : User :=
  {| user_id := pk p; username := pk_username p |}.

Definition User_patch (u : User) (p : UserPayload) : User :=
  {| user_id := user_id u; username := pk_username p |}.

(** Modelled from the spec: [Message] (Message.js is not under src/): item id,
    owning chat id, author id, content and the ordered "like" records. *)
Record Like := { userID : string }.

Record MessagePayload := {
  item_id : string;
  item_type : string;
  item_user_id : string;
  item_text : option string;
  item_likes : option (list Like)
}.

Record Message := {
  message_id : string;
  chatID : string;
  authorID : string;
  content : option string;
  likes : list Like
}.

Definition Message_new (threadID : string) (p : MessagePayload) : Message :=
  {| message_id := item_id p; chatID := threadID; authorID := item_user_id p;
     content := item_text p; likes := default [] (item_likes p) |}.

Definition Message_patch (m : Message) (p : MessagePayload) : Message :=
  {| message_id := message_id m; chatID := chatID m; authorID := authorID m;
     content := match item_text p with Some t => Some t | None => content m end;
     likes := default (likes m) (item_likes p) |}.

(** Modelled from the spec: [Chat] (Chat.js is not under src/): thread id,
    nullable name, members, admin ids, calling flag, pending flag and the
    mapping of message ids to messages.  A field absent from a payload is
    left as it is by the merge; the member collection is rebuilt from the
    payload, so that a snapshot taken before the merge keeps the prior
    members.  [chat_users] is the member [Collection], keyed by user id, in
    insertion order. *)
Record ThreadPayload := {
  thread_id : string;
  thread_title : option (option string);
  thread_users : option (list UserPayload);
  admin_user_ids : option (list string);
  thread_calling : option bool;
  thread_pending : option bool
}.

Record Chat := {
  chat_id : string;
  chat_name : option string;
  chat_users : list User;
  adminUserIDs : list string;
  calling : bool;
  pending : bool;
  chat_messages : gmap string Message
}.

(** [Collection.has] and [Collection.set] on a member collection. *)
Definition users_has (us : list User) (id : string) : bool :=
  existsb (fun u => String.eqb (user_id u) id) us.

Fixpoint users_set (us : list User) (u : User) : list User :=
  match us with
  | [] => [u]
  | v :: rest =>
      if String.eqb (user_id v) (user_id u) then u :: rest
      else v :: users_set rest u
  end.

Definition Chat_patch (c : Chat) (p : ThreadPayload) : Chat :=
  {| chat_id := chat_id c;
     chat_name := default (chat_name c) (thread_title p);
     chat_users :=
       match thread_users p with
       | Some us => foldl users_set [] (map User_new us)
       | None => chat_users c
       end;
     adminUserIDs := default (adminUserIDs c) (admin_user_ids p);
     calling := default (calling c) (thread_calling p);
     pending := default (pending c) (thread_pending p);
     chat_messages := chat_messages c |}.

Definition Chat_new (id : string) (p : ThreadPayload) : Chat :=
  Chat_patch {| chat_id := id; chat_name := None; chat_users := [];
                adminUserIDs := []; calling := false; pending := false;
                chat_messages := ∅ |} p.

(** ** Inbound data *)

Record Topic := { topic_id : string }.

(** One patch operation of a realtime batch: [{op, path, value}]. *)
Record Data := { op : string; path : string; value : string }.
Record RawMessage := { data : list Data }.

(** A push payload: a decoded object whose fields may be missing. *)
Record Push := {
  pushCategory : option string;
  sourceUserId : option string;
  actionParams_id : option string
}.

(** JavaScript truthiness of an optional string: [undefined] and the empty
    string are falsy. *)
Definition truthy (o : option string) : bool :=
  match o with
  | Some v => negb (String.eqb v "")
  | None => false
  end.

(** ** Collaborators outside src/

    [JSON.parse] is read at the three shapes the handlers use it at ([None]:
    it throws); the path matchers of utils.js return the extracted ids
    ([None]: no match, the [false] of their test mode); [isMessageValid] and
    [isID] are utils.js predicates. *)
Class Util := {
  JSON_parse_batch : string -> option (list RawMessage);
  JSON_parse_thread : string -> option ThreadPayload;
  JSON_parse_item : string -> option MessagePayload;
  matchInboxThreadPath : string -> option string;
  matchMessagePath : string -> option string;
  matchAdminPath : string -> option (string * string);
  isMessageValid : Message -> bool;
  isID : string -> bool
}.

(** ** Events, continuations and the client state *)

Inductive Event :=
| rawRealtime (topic : Topic) (payload : string)
| rawRealtime_undefined
| rawFbns (d : Push)
| rawFbns_undefined
| connected
| debug_logged (u : User)
| chatNameUpdate (chat : loc) (oldName newName : option string)
| chatUserAdd (chat : loc) (u : User)
| chatUserRemove (chat : loc) (u : User)
| callStart (chat : loc)
| callEnd (chat : loc)
| likeAdd (u : User) (m : Message)
| likeRemove (u : User) (m : Message)
| chatAdminAdd (chat : loc) (u : User)
| chatAdminRemove (chat : loc) (u : User)
| messageCreate (m : Message)
| messageDelete (m : Message)
| newFollower (u : User)
| followRequest (u : User)
| pendingRequest (chat : loc)
| liveNotification (d : Push)
| push (d : Push).

(** The callbacks given to [fetchChat(..).then]; each receives the chat. *)
Inductive ChatCb :=
| cb_replaceMessage (value : string)
| cb_adminAdd (userID : string)
| cb_addMessage (threadID value : string)
| cb_adminRemove (userID : string)
| cb_removeMessage (value : string)
| cb_caller.

(** The callbacks run when a [fetchUser] promise resolves. *)
Inductive UserCb :=
| ucb_likeRemove (message : Message)
| ucb_likeAdd (message : Message)
| ucb_chatAdminAdd (chat : loc)
| ucb_chatAdminRemove (chat : loc)
| ucb_newFollower
| ucb_followRequest
| ucb_caller.

Inductive Task :=
| RunChatCb (cb : ChatCb) (chat : loc)
| RunUserCb (cb : UserCb) (user : User).

(** An [await] on a request of the private API, with what resumes after it. *)
Inductive Awaiter :=
| await_chatMiss (chatID : string) (cb : ChatCb)
| await_chatForce (chatID : string) (cb : ChatCb)
| await_userId (force : bool) (cb : UserCb)
| await_userMiss (userID : string) (cb : UserCb)
| await_userForce (userID : string) (cb : UserCb)
| await_pending (id : string)
| await_createChat.

Inductive Response :=
| RespThread (p : ThreadPayload)
| RespUser (p : UserPayload)
| RespId (id : string)
| RespThreads (threads : list ThreadPayload)
| RespReject.

(** The elements of an [eventsToReplay] entry. *)
Inductive JsVal :=
| VUndefined
| VStr (v : string)
| VTopic (t : Topic)
| VPush (d : Push).

Record Client := {
  ready : bool;
  heap : list Chat;
  cache_users : gmap string User;
  cache_chats : gmap string loc;
  cache_pendingChats : gmap string loc;
  eventsToReplay : list (list JsVal);
  emitted : list Event;
  microtasks : list Task;
  inflight : list Awaiter;
  rejections : list Error
}.

(** [new Client(options)]. *)
Definition Client_new : Client :=
  {| ready := false; heap := []; cache_users := ∅; cache_chats := ∅;
     cache_pendingChats := ∅; eventsToReplay := []; emitted := [];
     microtasks := []; inflight := []; rejections := [] |}.

Definition set_ready (b : bool) (s : Client) : Client :=
  {| ready := b; heap := heap s; cache_users := cache_users s;
     cache_chats := cache_chats s; cache_pendingChats := cache_pendingChats s;
     eventsToReplay := eventsToReplay s; emitted := emitted s;
     microtasks := microtasks s; inflight := inflight s;
     rejections := rejections s |}.

Definition set_heap (h : list Chat) (s : Client) : Client :=
  {| ready := ready s; heap := h; cache_users := cache_users s;
     cache_chats := cache_chats s; cache_pendingChats := cache_pendingChats s;
     eventsToReplay := eventsToReplay s; emitted := emitted s;
     microtasks := microtasks s; inflight := inflight s;
     rejections := rejections s |}.

Definition set_users (m : gmap string User) (s : Client) : Client :=
  {| ready := ready s; heap := heap s; cache_users := m;
     cache_chats := cache_chats s; cache_pendingChats := cache_pendingChats s;
     eventsToReplay := eventsToReplay s; emitted := emitted s;
     microtasks := microtasks s; inflight := inflight s;
     rejections := rejections s |}.

Definition set_chats (m : gmap string loc) (s : Client) : Client :=
  {| ready := ready s; heap := heap s; cache_users := cache_users s;
     cache_chats := m; cache_pendingChats := cache_pendingChats s;
     eventsToReplay := eventsToReplay s; emitted := emitted s;
     microtasks := microtasks s; inflight := inflight s;
     rejections := rejections s |}.

Definition set_pendingChats (m : gmap string loc) (s : Client) : Client :=
  {| ready := ready s; heap := heap s; cache_users := cache_users s;
     cache_chats := cache_chats s; cache_pendingChats := m;
     eventsToReplay := eventsToReplay s; emitted := emitted s;
     microtasks := microtasks s; inflight := inflight s;
     rejections := rejections s |}.

Definition set_eventsToReplay (q : list (list JsVal)) (s : Client) : Client :=
  {| ready := ready s; heap := heap s; cache_users := cache_users s;
     cache_chats := cache_chats s; cache_pendingChats := cache_pendingChats s;
     eventsToReplay := q; emitted := emitted s;
     microtasks := microtasks s; inflight := inflight s;
     rejections := rejections s |}.

Definition set_microtasks (q : list Task) (s : Client) : Client :=
  {| ready := ready s; heap := heap s; cache_users := cache_users s;
     cache_chats := cache_chats s; cache_pendingChats := cache_pendingChats s;
     eventsToReplay := eventsToReplay s; emitted := emitted s;
     microtasks := q; inflight := inflight s;
     rejections := rejections s |}.

Definition set_inflight (q : list Awaiter) (s : Client) : Client :=
  {| ready := ready s; heap := heap s; cache_users := cache_users s;
     cache_chats := cache_chats s; cache_pendingChats := cache_pendingChats s;
     eventsToReplay := eventsToReplay s; emitted := emitted s;
     microtasks := microtasks s; inflight := q;
     rejections := rejections s |}.

(** [this.emit(..)]: the event is appended to the trace. *)
Definition emit (e : Event) (s : Client) : Client :=
  {| ready := ready s; heap := heap s; cache_users := cache_users s;
     cache_chats := cache_chats s; cache_pendingChats := cache_pendingChats s;
     eventsToReplay := eventsToReplay s; emitted := emitted s ++ [e];
     microtasks := microtasks s; inflight := inflight s;
     rejections := rejections s |}.

(** A promise nobody handles is rejected with [e]. *)
Definition reject (e : Error) (s : Client) : Client :=
  {| ready := ready s; heap := heap s; cache_users := cache_users s;
     cache_chats := cache_chats s; cache_pendingChats := cache_pendingChats s;
     eventsToReplay := eventsToReplay s; emitted := emitted s;
     microtasks := microtasks s; inflight := inflight s;
     rejections := rejections s ++ [e] |}.

Definition enqueue (t : Task) (s : Client) : Client :=
  set_microtasks (microtasks s ++ [t]) s.

Definition request (a : Awaiter) (s : Client) : Client :=
  set_inflight (inflight s ++ [a]) s.

(** [const chat = new Chat(..)]: the object is allocated at a fresh location. *)
Definition alloc (c : Chat) (s : Client) : loc * Client :=
  (List.length (heap s), set_heap (heap s ++ [c]) s).

(** ** The engine *)

Section Engine.
Context `{U : Util}.

(** [_patchOrCreateUser(userID, userPayload)]: patch the cached user or
    create it; the user now cached is returned. *)
Definition _patchOrCreateUser (userID : string) (userPayload : UserPayload)
    (s : Client) : Client * option User :=
  let s' :=
    match cache_users s !! userID with
    | Some u => set_users (<[userID := User_patch u userPayload]> (cache_users s)) s
    | None => set_users (<[userID := User_new userPayload]> (cache_users s)) s
    end in
  (s', cache_users s' !! userID).

(** [fetchChat(chatID, force).then(cb)].  Up to its first [await] the body
    of [fetchChat] only reads the cache: on a cached id without [force] the
    promise is already resolved with the cached chat and [cb] becomes a
    microtask; otherwise a thread request is in flight. *)
Definition fetchChat (chatID : string) (force : bool) (cb : ChatCb)
    (s : Client) : Client :=
  match cache_chats s !! chatID with
  | None => request (await_chatMiss chatID cb) s
  | Some l =>
      if force then request (await_chatForce chatID cb) s
      else enqueue (RunChatCb cb l) s
  end.

(** The part of [fetchUser] that follows the resolution of the id. *)
Definition fetchUser_id (userID : string) (force : bool) (cb : UserCb)
    (s : Client) : Client :=
  match cache_users s !! userID with
  | None => request (await_userMiss userID cb) s
  | Some u =>
      if force then request (await_userForce userID cb) s
      else enqueue (RunUserCb cb u) s
  end.

(** [fetchUser(query, force).then(cb)] (or its [await]). *)
Definition fetchUser (query : string) (force : bool) (cb : UserCb)
    (s : Client) : Client :=
  if isID query then fetchUser_id query force cb s
  else request (await_userId force cb) s.

(** The callbacks that receive a resolved user. *)
Definition runUserCb (cb : UserCb) (user : User) (s : Client) : Client :=
  match cb with
  | ucb_likeRemove message => emit (likeRemove user message) s
  | ucb_likeAdd message => emit (likeAdd user message) s
  | ucb_chatAdminAdd chat => emit (chatAdminAdd chat user) s
  | ucb_chatAdminRemove chat => emit (chatAdminRemove chat user) s
  | ucb_newFollower => emit (newFollower user) s
  | ucb_followRequest => emit (followRequest user) s
  | ucb_caller => s
  end.

Definition likes_some (ls : list Like) (id : string) : bool :=
  existsb (fun l => String.eqb (userID l) id) ls.

Definition set_messages (m : gmap string Message) (c : Chat) : Chat :=
  {| chat_id := chat_id c; chat_name := chat_name c; chat_users := chat_users c;
     adminUserIDs := adminUserIDs c; calling := calling c; pending := pending c;
     chat_messages := m |}.

Definition set_adminUserIDs (a : list string) (c : Chat) : Chat :=
  {| chat_id := chat_id c; chat_name := chat_name c; chat_users := chat_users c;
     adminUserIDs := a; calling := calling c; pending := pending c;
     chat_messages := chat_messages c |}.

(** Message replace (client.js 294-316), run on the resolved [chat]. *)
Definition replaceMessage (l : loc) (chat : Chat) (value : string)
    (s : Client) : Client :=
  match JSON_parse_item value with
  | None => reject SyntaxError s
  | Some messagePayload =>
      match chat_messages chat !! item_id messagePayload with
      | None => s
      | Some oldMessage =>
          let message := Message_patch oldMessage messagePayload in
          let s1 := set_heap (<[l := set_messages
                     (<[item_id messagePayload := message]> (chat_messages chat))
                     chat]> (heap s)) s in
          if Nat.ltb (List.length (likes message)) (List.length (likes oldMessage)) then
            match find (fun like => negb (likes_some (likes message) (userID like)))
                       (likes oldMessage) with
            | None => reject TypeError s1
            | Some removed => fetchUser (userID removed) false (ucb_likeRemove message) s1
            end
          else if Nat.ltb (List.length (likes oldMessage)) (List.length (likes message)) then
            match find (fun like => negb (likes_some (likes oldMessage) (userID like)))
                       (likes message) with
            | None => s1
            | Some added => fetchUser (userID added) false (ucb_likeAdd message) s1
            end
          else s1
      end
  end.

(** Message add (client.js 337-344). *)
Definition addMessage (l : loc) (chat : Chat) (threadID value : string)
    (s : Client) : Client :=
  match JSON_parse_item value with
  | None => reject SyntaxError s
  | Some messagePayload =>
      if String.eqb (item_type messagePayload) "action_log"
         || String.eqb (item_type messagePayload) "video_call_event"
      then s
      else
        let message := Message_new threadID messagePayload in
        let s1 := set_heap (<[l := set_messages
                   (<[message_id message := message]> (chat_messages chat))
                   chat]> (heap s)) s in
        if isMessageValid message then emit (messageCreate message) s1 else s1
  end.

(** Message remove (client.js 365-370): [data.value] is the message id. *)
Definition removeMessage (chat : Chat) (value : string) (s : Client) : Client :=
  match chat_messages chat !! value with
  | Some existing => emit (messageDelete existing) s
  | None => s
  end.

(** The callbacks that receive a resolved chat.  The location comes from a
    lookup in the chats cache, whose ids name chats of the heap; on any other
    location the property read fails. *)
Definition runChatCb (cb : ChatCb) (l : loc) (s : Client) : Client :=
  match heap s !! l with
  | None => match cb with cb_caller => s | _ => reject TypeError s end
  | Some chat =>
      match cb with
      | cb_replaceMessage value => replaceMessage l chat value s
      | cb_adminAdd userID =>
          fetchUser userID false (ucb_chatAdminAdd l)
            (set_heap (<[l := set_adminUserIDs (adminUserIDs chat ++ [userID]) chat]>
                         (heap s)) s)
      | cb_addMessage threadID value => addMessage l chat threadID value s
      | cb_adminRemove userID =>
          fetchUser userID false (ucb_chatAdminRemove l)
            (set_heap (<[l := set_adminUserIDs (adminUserIDs chat ++ [userID]) chat]>
                         (heap s)) s)
      | cb_removeMessage value => removeMessage chat value s
      | cb_caller => s
      end
  end.

Definition runTask (t : Task) (s : Client) : Client :=
  match t with
  | RunChatCb cb l => runChatCb cb l s
  | RunUserCb cb u => runUserCb cb u s
  end.

(** The microtask queue is drained at the end of every macrotask.  A chat
    callback schedules at most one user callback and a user callback
    schedules nothing, which bounds the number of steps. *)
Definition task_weight (t : Task) : nat :=
  match t with
  | RunChatCb _ _ => 2
  | RunUserCb _ _ => 1
  end.

Definition queue_weight (q : list Task) : nat :=
  foldr (fun t n => task_weight t + n) 0 q.

Fixpoint drain (fuel : nat) (s : Client) : Client :=
  match fuel with
  | 0 => s
  | S fuel' =>
      match microtasks s with
      | [] => s
      | t :: q => drain fuel' (runTask t (set_microtasks q s))
      end
  end.

Definition runMicrotasks (s : Client) : Client :=
  drain (queue_weight (microtasks s)) s.

(** Thread replace (client.js 259-289), the synchronous branch of a
    ['replace'] operation.  The error is the exception thrown out of the
    [forEach] callback. *)
Definition replaceThread (threadID value : string) (s : Client)
    : Client * option Error :=
  match cache_chats s !! threadID with
  | Some l =>
      match heap s !! l with
      | None => (s, Some TypeError)
      | Some oldChat =>
          match JSON_parse_thread value with
          | None => (s, Some SyntaxError)
          | Some p =>
              let chat := Chat_patch oldChat p in
              let s1 := set_heap (<[l := chat]> (heap s)) s in
              let s2 :=
                if bool_decide (chat_name oldChat = chat_name chat) then s1
                else emit (chatNameUpdate l (chat_name oldChat) (chat_name chat)) s1 in
              let s3 :=
                if Nat.ltb (List.length (chat_users oldChat)) (List.length (chat_users chat)) then
                  match find (fun u => negb (users_has (chat_users oldChat) (user_id u)))
                             (chat_users chat) with
                  | Some userAdded => emit (chatUserAdd l userAdded) s2
                  | None => s2
                  end
                else if Nat.ltb (List.length (chat_users chat)) (List.length (chat_users oldChat)) then
                  match find (fun u => negb (users_has (chat_users chat) (user_id u)))
                             (chat_users oldChat) with
                  | Some userRemoved => emit (chatUserRemove l userRemoved) s2
                  | None => s2
                  end
                else s2 in
              let s4 :=
                if negb (calling oldChat) && calling chat then emit (callStart l) s3
                else if calling oldChat && negb (calling chat) then emit (callEnd l) s3
                else s3 in
              (s4, None)
          end
      end
  | None =>
      match JSON_parse_thread value with
      | None => (s, Some SyntaxError)
      | Some p =>
          let '(l, s1) := alloc (Chat_new threadID p) s in
          (set_chats (<[threadID := l]> (cache_chats s1)) s1, None)
      end
  end.

(** The body of [rawMessage.data.forEach((data) => ..)]: the [switch] on
    [data.op]. *)
Definition applyData (d : Data) (s : Client) : Client * option Error :=
  if String.eqb (op d) "replace" then
    match matchInboxThreadPath (path d) with
    | Some threadID => replaceThread threadID (value d) s
    | None =>
        match matchMessagePath (path d) with
        | Some threadID => (fetchChat threadID false (cb_replaceMessage (value d)) s, None)
        | None => (s, None)
        end
    end
  else if String.eqb (op d) "add" then
    match matchAdminPath (path d) with
    | Some (threadID, userID) => (fetchChat threadID false (cb_adminAdd userID) s, None)
    | None =>
        match matchMessagePath (path d) with
        | Some threadID =>
            (fetchChat threadID false (cb_addMessage threadID (value d)) s, None)
        | None => (s, None)
        end
    end
  else if String.eqb (op d) "remove" then
    match matchAdminPath (path d) with
    | Some (threadID, userID) => (fetchChat threadID false (cb_adminRemove userID) s, None)
    | None =>
        match matchMessagePath (path d) with
        | Some threadID => (fetchChat threadID false (cb_removeMessage (value d)) s, None)
        | None => (s, None)
        end
    end
  else (s, None).

(** [rawMessage.data.forEach]: an exception ends the loop. *)
Fixpoint forEach_data (ds : list Data) (s : Client) : Client * option Error :=
  match ds with
  | [] => (s, None)
  | d :: rest =>
      match applyData d s with
      | (s', None) => forEach_data rest s'
      | (s', Some e) => (s', Some e)
      end
  end.

(** [rawMessages.forEach(async (rawMessage) => ..)]: the callback is an
    [async] function, so an exception of its body rejects the promise it
    returns, which nobody handles, and the loop goes on. *)
Fixpoint forEach_rawMessages (ms : list RawMessage) (s : Client) : Client :=
  match ms with
  | [] => s
  | m :: rest =>
      match forEach_data (data m) s with
      | (s', None) => forEach_rawMessages rest s'
      | (s', Some e) => forEach_rawMessages rest (reject e s')
      end
  end.

(** [handleRealtimeReceive(topic, payload)]; the error is the exception
    thrown to the caller. *)
Definition handleRealtimeReceive (topic : Topic) (payload : string)
    (s : Client) : Client * option Error :=
  if negb (ready s) then
    (set_eventsToReplay
       (eventsToReplay s ++ [[VStr "realtime"; VTopic topic; VStr payload]]) s,
     None)
  else
    let s1 := emit (rawRealtime topic payload) s in
    if String.eqb (topic_id topic) "146" then
      match JSON_parse_batch payload with
      | None => (s1, Some SyntaxError)
      | Some rawMessages => (forEach_rawMessages rawMessages s1, None)
      end
    else (s1, None).

(** [case c:] of the [switch (data.pushCategory)]. *)
Definition case_of (d : Push) (c : string) : bool :=
  match pushCategory d with
  | Some v => String.eqb v c
  | None => false
  end.

(** [handleFbnsReceive(data)], an [async] function: it never throws to its
    caller. *)
Definition handleFbnsReceive (d : Push) (s : Client) : Client :=
  if negb (ready s) then
    set_eventsToReplay (eventsToReplay s ++ [[VStr "fbns"; VPush d]]) s
  else
    let s1 := emit (rawFbns d) s in
    if case_of d "new_follower" then
      match sourceUserId d with
      | Some id => if truthy (Some id) then fetchUser id false ucb_newFollower s1 else s1
      | None => s1
      end
    else if case_of d "private_user_follow_request" then
      match sourceUserId d with
      | Some id => if truthy (Some id) then fetchUser id false ucb_followRequest s1 else s1
      | None => s1
      end
    else if case_of d "direct_v2_pending" then
      match actionParams_id d with
      | Some id =>
          if truthy (Some id) && negb (bool_decide (is_Some (cache_pendingChats s1 !! id)))
          then request (await_pending id) s1
          else s1
      | None => s1
      end
    else if case_of d "live_broadcast" then emit (liveNotification d) s1
    else emit (push d) s1.

(** *** The transport answers a request in flight *)

(** The body of the [forEach] of the pending refresh (client.js 417-421). *)
Definition refreshThread (thread : ThreadPayload) (s : Client) : Client :=
  let '(l, s1) := alloc (Chat_new (thread_id thread) thread) s in
  let s2 := set_chats (<[thread_id thread := l]> (cache_chats s1)) s1 in
  set_pendingChats (<[thread_id thread := l]> (cache_pendingChats s2)) s2.

(** What follows the [await] once the request is answered by [r]. *)
Definition resume (a : Awaiter) (r : Response) (s : Client) : Client :=
  match a, r with
  | _, RespReject => reject RequestError s
  | await_chatMiss chatID cb, RespThread chatPayload =>
      let '(l, s1) := alloc (Chat_new chatID chatPayload) s in
      enqueue (RunChatCb cb l) (set_chats (<[chatID := l]> (cache_chats s1)) s1)
  | await_chatForce chatID cb, RespThread chatPayload =>
      match cache_chats s !! chatID with
      | Some l =>
          match heap s !! l with
          | Some chat =>
              enqueue (RunChatCb cb l)
                (set_heap (<[l := Chat_patch chat chatPayload]> (heap s)) s)
          | None => reject TypeError s
          end
      | None => reject TypeError s
      end
  | await_userId force cb, RespId userID => fetchUser_id userID force cb s
  | await_userMiss userID cb, RespUser userPayload =>
      let user := User_new userPayload in
      enqueue (RunUserCb cb user) (set_users (<[userID := user]> (cache_users s)) s)
  | await_userForce userID cb, RespUser userPayload =>
      match cache_users s !! userID with
      | Some u =>
          let user := User_patch u userPayload in
          enqueue (RunUserCb cb user) (set_users (<[userID := user]> (cache_users s)) s)
      | None => reject TypeError s
      end
  | await_pending id, RespThreads pendingRequests =>
      let s1 := foldl (fun acc thread => refreshThread thread acc) s pendingRequests in
      match cache_pendingChats s1 !! id with
      | Some pendingChat => emit (pendingRequest pendingChat) s1
      | None => s1
      end
  | await_createChat, RespThread threadPayload =>
      let '(l, s1) := alloc (Chat_new (thread_id threadPayload) threadPayload) s in
      set_chats (<[thread_id threadPayload := l]> (cache_chats s1)) s1
  | _, _ => reject TypeError s
  end.

Definition net_reply (i : nat) (r : Response) (s : Client) : Client :=
  match inflight s !! i with
  | Some a => resume a r (set_inflight (delete i (inflight s)) s)
  | None => s
  end.

(** *** [login]: loading the chats, and the readiness tail *)

(** The body of [threads.forEach] (client.js 576-582). *)
Definition loadThread (thread : ThreadPayload) (s : Client) : Client :=
  let chat := Chat_new (thread_id thread) thread in
  let '(l, s1) := alloc chat s in
  let s2 := set_chats (<[thread_id thread := l]> (cache_chats s1)) s1 in
  if pending chat
  then set_pendingChats (<[thread_id thread := l]> (cache_pendingChats s2)) s2
  else s2.

(** client.js 561-582, from the user [me] and the threads the two feeds
    returned. *)
Definition login_load (me : User) (threads : list ThreadPayload) (s : Client)
    : Client :=
  let s1 := set_users (<[user_id me := me]> (cache_users s)) s in
  let s2 := emit (debug_logged me) s1 in
  foldl (fun acc thread => loadThread thread acc) s2 threads.

(** A handler called with no topic and no payload (a replayed entry whose
    tag was already shifted away): [topic.id] throws. *)
Definition handleRealtimeReceive_undefined (s : Client) : Client * option Error :=
  if negb (ready s) then
    (set_eventsToReplay
       (eventsToReplay s ++ [[VStr "realtime"; VUndefined; VUndefined]]) s, None)
  else (emit rawRealtime_undefined s, Some TypeError).

Definition handleFbnsReceive_undefined (s : Client) : Client :=
  if negb (ready s) then
    set_eventsToReplay (eventsToReplay s ++ [[VStr "fbns"; VUndefined]]) s
  else reject TypeError (emit rawFbns_undefined s).

(** The body of [this.eventsToReplay.forEach((event) => ..)], on an entry
    whose first element [event.shift()] has just removed. *)
Definition replayEvent (event : list JsVal) (s : Client) : Client * option Error :=
  match event with
  | VStr eventType :: args =>
      if String.eqb eventType "realtime" then
        match args with
        | VTopic topic :: VStr payload :: _ => handleRealtimeReceive topic payload s
        | _ => handleRealtimeReceive_undefined s
        end
      else if String.eqb eventType "fbns" then
        match args with
        | VPush d :: _ => (handleFbnsReceive d s, None)
        | _ => (handleFbnsReceive_undefined s, None)
        end
      else (s, None)
  | _ => (s, None)
  end.

(** [this.eventsToReplay.forEach]: entry [i] loses its first element in
    place, then is dispatched; an exception ends the loop. *)
Fixpoint replay (i : nat) (events : list (list JsVal)) (s : Client)
    : Client * option Error :=
  match events with
  | [] => (s, None)
  | event :: rest =>
      let s1 := set_eventsToReplay (<[i := tail event]> (eventsToReplay s)) s in
      match replayEvent event s1 with
      | (s2, None) => replay (S i) rest s2
      | (s2, Some e) => (s2, Some e)
      end
  end.

(** client.js 609-622.  An exception of the replay leaves [login] before
    the buffer is cleared. *)
Definition login_ready (s : Client) : Client * option Error :=
  let s1 := emit connected (set_ready true s) in
  match replay 0 (eventsToReplay s1) s1 with
  | (s2, None) => (set_eventsToReplay [] s2, None)
  | (s2, Some e) => (s2, Some e)
  end.

(** *** One macrotask *)

Inductive Action :=
| Deliver_realtime (topic : Topic) (payload : string)
| Deliver_fbns (d : Push)
| Net_reply (i : nat) (r : Response)
| Login_load (me : User) (threads : list ThreadPayload)
| Login_ready
| Call_fetchChat (chatID : string) (force : bool)
| Call_fetchUser (query : string) (force : bool)
| Call_createChat
| Call_patchOrCreateUser (userID : string) (p : UserPayload)
| Logout.

Definition act (a : Action) (s : Client) : Client * option Error :=
  match a with
  | Deliver_realtime topic payload => handleRealtimeReceive topic payload s
  | Deliver_fbns d => (handleFbnsReceive d s, None)
  | Net_reply i r => (net_reply i r s, None)
  | Login_load me threads => (login_load me threads s, None)
  | Login_ready => login_ready s
  | Call_fetchChat chatID force => (fetchChat chatID force cb_caller s, None)
  | Call_fetchUser query force => (fetchUser query force ucb_caller s, None)
  | Call_createChat => (request await_createChat s, None)
  | Call_patchOrCreateUser userID p => (fst (_patchOrCreateUser userID p s), None)
  | Logout => (set_ready false s, None)
  end.

(** A macrotask runs to its end, then the microtasks it scheduled. *)
Definition step (a : Action) (s : Client) : Client * option Error :=
  let '(s', e) := act a s in (runMicrotasks s', e).

Definition run (acts : list Action) (s : Client) : Client :=
  foldl (fun acc a => fst (step a acc)) s acts.

End Engine.

(** ** Vocabulary of the properties *)

(** The events a state [s'] has emitted since [s]. *)
Definition emitted_since (s s' : Client) : list Event :=
  drop (List.length (emitted s)) (emitted s').

Definition emit_all (evs : list Event) (s : Client) : Client :=
  foldl (fun acc e => emit e acc) s evs.

Definition membership_event (e : Event) : bool :=
  match e with
  | chatUserAdd _ _ | chatUserRemove _ _ => true
  | _ => false
  end.

(** The three comparisons of the snapshot with the patched chat, as the
    events each one emits. *)
Definition nameDiff (l : loc) (oldChat chat : Chat) : list Event :=
  if bool_decide (chat_name oldChat = chat_name chat) then []
  else [chatNameUpdate l (chat_name oldChat) (chat_name chat)].

Definition usersDiff (l : loc) (oldChat chat : Chat) : list Event :=
  if Nat.ltb (List.length (chat_users oldChat)) (List.length (chat_users chat)) then
    match find (fun u => negb (users_has (chat_users oldChat) (user_id u)))
               (chat_users chat) with
    | Some userAdded => [chatUserAdd l userAdded]
    | None => []
    end
  else if Nat.ltb (List.length (chat_users chat)) (List.length (chat_users oldChat)) then
    match find (fun u => negb (users_has (chat_users chat) (user_id u)))
               (chat_users oldChat) with
    | Some userRemoved => [chatUserRemove l userRemoved]
    | None => []
    end
  else [].

Definition callDiff (l : loc) (oldChat chat : Chat) : list Event :=
  if negb (calling oldChat) && calling chat then [callStart l]
  else if calling oldChat && negb (calling chat) then [callEnd l]
  else [].



(** Every id of the pending-chats cache is an id of the chats cache. *)
Definition pending_in_chats (s : Client) : Prop :=
  dom (cache_pendingChats s) ⊆ dom (cache_chats s).

(** From [s] to [s'] no id left the chats cache, and every id that the
    pending-chats cache gained is an id of the chats cache of [s']. *)
Definition paired_growth (s s' : Client) : Prop :=
  dom (cache_chats s) ⊆ dom (cache_chats s')
  /\ dom (cache_pendingChats s') ⊆ dom (cache_pendingChats s) ∪ dom (cache_chats s').

Definition same_caches (s s' : Client) : Prop :=
  cache_chats s' = cache_chats s /\ cache_pendingChats s' = cache_pendingChats s.

(** The cached ids name chats of the heap. *)
Definition allocated (s : Client) : Prop :=
  (forall id l, cache_chats s !! id = Some l -> l < List.length (heap s))
  /\ (forall id l, cache_pendingChats s !! id = Some l -> l < List.length (heap s)).

(** From [s] to [s'] the heap did not shrink, and an id that a cache maps to
    a new object maps to a chat of the heap. *)
Definition grows (s s' : Client) : Prop :=
  List.length (heap s) <= List.length (heap s')
  /\ (forall id l, cache_chats s' !! id = Some l ->
        cache_chats s !! id = Some l \/ l < List.length (heap s'))
  /\ (forall id l, cache_pendingChats s' !! id = Some l ->
        cache_pendingChats s !! id = Some l \/ l < List.length (heap s')).

Definition same_shape (s s' : Client) : Prop :=
  same_caches s s' /\ List.length (heap s') = List.length (heap s).

(** An inbound raw event, and the macrotask that delivers it. *)
Inductive Inbound :=
| Realtime (topic : Topic) (payload : string)
| Fbns (d : Push).

Definition deliver (e : Inbound) : Action :=
  match e with
  | Realtime topic payload => Deliver_realtime topic payload
  | Fbns d => Deliver_fbns d
  end.

(** The entry a handler pushes for it while the client is not ready. *)
Definition entry (e : Inbound) : list JsVal :=
  match e with
  | Realtime topic payload => [VStr "realtime"; VTopic topic; VStr payload]
  | Fbns d => [VStr "fbns"; VPush d]
  end.

Section Classification.
Context `{U : Util}.

(** The handler of the event, without the microtasks that follow it. *)
Definition handle (e : Inbound) (s : Client) : Client * option Error :=
  act (deliver e) s.

(** The handler of a realtime event throws: topic 146 and no JSON. *)
Definition throws (e : Inbound) : bool :=
  match e with
  | Realtime topic payload =>
      String.eqb (topic_id topic) "146"
      && negb (bool_decide (is_Some (JSON_parse_batch payload)))
  | Fbns _ => false
  end.



(** Handling the events one after the other, without running microtasks in
    between, and the replay claimed equivalent to the live processing. *)
Definition handle_all (es : list Inbound) (s : Client) : Client :=
  foldl (fun acc e => fst (handle e acc)) s es.


End Classification.

(** ** A sample set of collaborators and a sample client

    Used to run the engine on concrete deliveries.  [JSON.parse] is a table
    from the texts below to what they decode to (any other text does not
    parse); the matchers recognise the three listed paths. *)
Module Sample.

Definition table {A} (t : list (string * A)) (k : string) : option A :=
  snd <$> find (fun kv => String.eqb (fst kv) k) t.

Definition alice : User := {| user_id := "1"; username := "alice" |}.
Definition bob : User := {| user_id := "2"; username := "bob" |}.
Definition carol : User := {| user_id := "3"; username := "carol" |}.

Definition payload_of (u : User) : UserPayload :=
  {| pk := user_id u; pk_username := username u |}.

Definition renamed : ThreadPayload :=
  {| thread_id := "340"; thread_title := Some (Some "B"); thread_users := None;
     admin_user_ids := None; thread_calling := None; thread_pending := None |}.

Definition joined : ThreadPayload :=
  {| thread_id := "340"; thread_title := None;
     thread_users := Some (map payload_of [alice; bob; carol]);
     admin_user_ids := None; thread_calling := None; thread_pending := None |}.

Definition shrunk : ThreadPayload :=
  {| thread_id := "340"; thread_title := None;
     thread_users := Some (map payload_of [alice]);
     admin_user_ids := None; thread_calling := None; thread_pending := None |}.

Definition hello : MessagePayload :=
  {| item_id := "m2"; item_type := "text"; item_user_id := "2";
     item_text := Some "hello"; item_likes := None |}.

Definition inboxPath : string := "/direct_v2/inbox/threads/340".
Definition newInboxPath : string := "/direct_v2/inbox/threads/341".
Definition itemPath : string := "/direct_v2/threads/340/items/m".
Definition adminPath : string := "/direct_v2/threads/340/admin_user_ids/3".

Definition patch (o p v : string) : RawMessage :=
  {| data := [{| op := o; path := p; value := v |}] |}.

Definition batches : list (string * list RawMessage) :=
  [ ("rename", [patch "replace" inboxPath "renamed"]);
    ("join", [patch "replace" inboxPath "joined"]);
    ("leave", [patch "replace" inboxPath "left"]);
    ("first sight", [patch "replace" newInboxPath "renamed"]);
    ("bad thread", [patch "replace" inboxPath "{"]);
    ("say hello", [patch "add" itemPath "hello"]);
    ("unsend m1", [patch "remove" itemPath "m1"]);
    ("unsend m9", [patch "remove" itemPath "m9"]);
    ("demote carol", [patch "remove" adminPath ""]) ].

#[global] Instance util : Util :=
  {| JSON_parse_batch := table batches;
     JSON_parse_thread :=
       table [("renamed", renamed); ("joined", joined); ("left", shrunk)];
     JSON_parse_item := table [("hello", hello)];
     matchInboxThreadPath :=
       table [(inboxPath, "340"); (newInboxPath, "341")];
     matchMessagePath := table [(itemPath, "340")];
     matchAdminPath := table [(adminPath, ("340", "3"))];
     isMessageValid := fun m => bool_decide (is_Some (content m));
     isID := fun q => bool_decide (q ∈ ["1"; "2"; "3"]) |}.

Definition m1 : Message :=
  {| message_id := "m1"; chatID := "340"; authorID := "1";
     content := Some "hi"; likes := [] |}.

Definition chat340 : Chat :=
  {| chat_id := "340"; chat_name := Some "A"; chat_users := [alice; bob];
     adminUserIDs := ["1"]; calling := false; pending := false;
     chat_messages := {[ "m1" := m1 ]} |}.

(** A client that has loaded one chat and three users and is not ready. *)
Definition loaded : Client :=
  {| ready := false; heap := [chat340];
     cache_users := <["1" := alice]> (<["2" := bob]> {[ "3" := carol ]});
     cache_chats := {[ "340" := 0 ]}; cache_pendingChats := ∅;
     eventsToReplay := []; emitted := []; microtasks := []; inflight := [];
     rejections := [] |}.

Definition live : Client := set_ready true loaded.

Definition topic146 : Topic := {| topic_id := "146" |}.

Definition broadcast : Push :=
  {| pushCategory := Some "live_broadcast"; sourceUserId := None;
     actionParams_id := None |}.

End Sample.

(** ** The rest of the realtime vocabulary *)

Definition call_event (e : Event) : bool :=
  match e with
  | callStart _ | callEnd _ => true
  | _ => false
  end.

Definition like_event (e : Event) : bool :=
  match e with
  | likeAdd _ _ | likeRemove _ _ => true
  | _ => false
  end.

Section Unmatched.
Context `{U : Util}.

(** The operation reaches no branch of the [switch] that does anything: its
    [op] is none of the three, or its path matches none of the matchers
    tried for that [op]. *)
Definition unmatched (d : Data) : bool :=
  if String.eqb (op d) "replace" then
    negb (bool_decide (is_Some (matchInboxThreadPath (path d))))
    && negb (bool_decide (is_Some (matchMessagePath (path d))))
  else if String.eqb (op d) "add" || String.eqb (op d) "remove" then
    negb (bool_decide (is_Some (matchAdminPath (path d))))
    && negb (bool_decide (is_Some (matchMessagePath (path d))))
  else true.

(** The item types that a message ['add'] discards. *)
Definition discarded_item (p : MessagePayload) : bool :=
  String.eqb (item_type p) "action_log"
  || String.eqb (item_type p) "video_call_event".

End Unmatched.

(** ** Cookies and authentication ([loadCookiesFromJson], [login])

    The file system, the cookie jar and the account endpoints are outside
    the repository: their answers are the fields of [Env], one field for each
    place the code calls them at, and the calls the code makes are recorded,
    in order.  Console logging is left out. *)

(** A cookie of the JSON file; any field may be missing. *)
Record CookieJson := {
  cookie_name : option string;
  cookie_value : option string;
  cookie_domain : option string;
  cookie_path : option string;
  cookie_secure : option bool;
  cookie_httpOnly : option bool;
  cookie_expires : option string
}.

(** The properties given to [new tough.Cookie]. *)
Record ToughCookie := {
  key : option string;
  tough_value : option string;
  domain : string;
  tough_path : string;
  secure : bool;
  httpOnly : bool;
  expires : option string
}.

(** [domain.replace(/^\./, '')]: one leading dot is removed. *)
Definition strip_dot (d : string) : string :=
  match d with
  | String c rest => if String.eqb (String c EmptyString) "." then rest else d
  | EmptyString => d
  end.

(** [x !== false]. *)
Definition not_false (o : option bool) : bool :=
  match o with
  | Some false => false
  | _ => true
  end.

(** The cookie built in the loop; [None] when [cookie.domain] is undefined
    ([.replace] then throws). *)
Definition toughCookie (c : CookieJson) : option ToughCookie :=
  match cookie_domain c with
  | None => None
  | Some d =>
      Some {| key := cookie_name c; tough_value := cookie_value c;
              domain := strip_dot d;
              tough_path := if truthy (cookie_path c) then default "/" (cookie_path c)
                            else "/";
              secure := not_false (cookie_secure c);
              httpOnly := not_false (cookie_httpOnly c);
              expires := if truthy (cookie_expires c) then cookie_expires c else None |}
  end.

(** The url given to [cookieJar.setCookie]. *)
Definition cookie_url (t : ToughCookie) : string :=
  "https://" ++ domain t ++ tough_path t.

(** The loop of [loadCookiesFromJson]: the cookies the jar stored, with
    their urls, and the error that ended the loop, if any.  [accepts] is the
    jar: whether [setCookie] resolves. *)
Fixpoint setCookies (accepts : ToughCookie -> string -> bool)
    (cookies : list CookieJson) : list (ToughCookie * string) * option Error :=
  match cookies with
  | [] => ([], None)
  | cookie :: rest =>
      match toughCookie cookie with
      | None => ([], Some TypeError)
      | Some t =>
          if accepts t (cookie_url t) then
            let '(stored, e) := setCookies accepts rest in
            ((t, cookie_url t) :: stored, e)
          else ([], Some RequestError)
      end
  end.

(** The cookie as the jar stores it, when the loop gets past it. *)
Definition usable (accepts : ToughCookie -> string -> bool) (c : CookieJson)
    : option (ToughCookie * string) :=
  match toughCookie c with
  | Some t => if accepts t (cookie_url t) then Some (t, cookie_url t) else None
  | None => None
  end.

(** [loadCookiesFromJson(path)]: [file] is what reading and parsing the file
    gives (an error when either throws); the error is rethrown after
    logging; on success the count [cookiesLoaded] is returned for the log
    line. *)
Definition loadCookiesFromJson (accepts : ToughCookie -> string -> bool)
    (file : Error + list CookieJson)
    : list (ToughCookie * string) * (Error + nat) :=
  match file with
  | inl e => ([], inl e)
  | inr cookies =>
      match setCookies accepts cookies with
      | (stored, Some e) => (stored, inl e)
      | (stored, None) => (stored, inr (List.length stored))
      end
  end.

(** The answers of the outside world to one [login]. *)
Record Env := {
  session_access : bool;       (* fs.access(sessionFilePath) resolves *)
  session_read : bool;         (* the file is read and is JSON *)
  session_deserialize : bool;  (* ig.state.deserialize resolves *)
  session_currentUser : bool;  (* currentUser() after the session *)
  cookies_file : Error + list CookieJson;
  jar_accepts : ToughCookie -> string -> bool;
  cookies_currentUser : bool;  (* currentUser() after the cookies *)
  state_serialize : option string;   (* the message of its rejection *)
  session_write : option string;
  account_login : option string;
  login_currentUser : option string
}.

(** The calls [login] makes while it authenticates. *)
Inductive Call :=
| call_access
| call_readSession
| call_deserialize
| call_currentUser
| call_loadCookies (stored : list (ToughCookie * string))
| call_serialize
| call_writeSession
| call_accountLogin.

Inductive Method := by_session | by_cookies | by_credentials.

(** Step 1 (client.js 497-513): [true] when [loginSuccess] is set. *)
Definition try_session (env : Env) : list Call * bool :=
  if negb (session_access env) then ([call_access], false)
  else if negb (session_read env) then ([call_access; call_readSession], false)
  else if negb (session_deserialize env)
  then ([call_access; call_readSession; call_deserialize], false)
  else ([call_access; call_readSession; call_deserialize; call_currentUser],
        session_currentUser env).

(** Saving the session: [serialize] then [writeFile]; the message of the
    rejection, if any. *)
Definition save_session (env : Env) : list Call * option string :=
  match state_serialize env with
  | Some m => ([call_serialize], Some m)
  | None => ([call_serialize; call_writeSession], session_write env)
  end.

(** Step 2 (client.js 516-539).  [loginSuccess] is set before the session
    is saved, and both [catch] blocks end inside the step. *)
Definition try_cookies (env : Env) : list Call * bool :=
  match loadCookiesFromJson (jar_accepts env) (cookies_file env) with
  | (stored, inl _) => ([call_loadCookies stored], false)
  | (stored, inr _) =>
      if cookies_currentUser env
      then (call_loadCookies stored :: call_currentUser :: fst (save_session env), true)
      else ([call_loadCookies stored; call_currentUser], false)
  end.

(** Step 3 (client.js 542-555): every rejection leaves [login]. *)
Definition try_credentials (env : Env) : list Call * (string + unit) :=
  match account_login env with
  | Some m => ([call_accountLogin], inl m)
  | None =>
      match login_currentUser env with
      | Some m => ([call_accountLogin; call_currentUser], inl m)
      | None =>
          match save_session env with
          | (calls, Some m) => (call_accountLogin :: call_currentUser :: calls, inl m)
          | (calls, None) => (call_accountLogin :: call_currentUser :: calls, inr tt)
          end
      end
  end.

(** [msg.includes(word)]. *)
Definition includes (msg word : string) : bool :=
  match String.index 0 word msg with
  | Some _ => true
  | None => false
  end.

(** The [catch] of [login] (client.js 624-633): the message of the error it
    throws. *)
Definition rethrow (msg : string) : string :=
  if includes msg "login" || includes msg "cookie" || includes msg "session"
  then msg
  else "Unexpected error during initialization: " ++ msg.

Definition no_method : string :=
  "No valid login method succeeded (session, cookies, or credentials)".

(** client.js 485-559 with the [catch]: the calls made, and the method that
    authenticated or the message of the error thrown. *)
Definition authenticate (env : Env) (username password : option string)
    : list Call * (string + Method) :=
  if negb (truthy username) then ([], inl (rethrow "❌ Username is required"))
  else
    let '(calls1, ok1) := try_session env in
    if ok1 then (calls1, inr by_session)
    else
      let '(calls2, ok2) := try_cookies env in
      if ok2 then (calls1 ++ calls2, inr by_cookies)
      else if truthy password then
        match try_credentials env with
        | (calls3, inl m) => (calls1 ++ calls2 ++ calls3, inl (rethrow m))
        | (calls3, inr _) => (calls1 ++ calls2 ++ calls3, inr by_credentials)
        end
      else (calls1 ++ calls2, inl (rethrow no_method)).

(** The three ways to authenticate, as conditions on the answers. *)
Definition session_ok (env : Env) : bool :=
  session_access env && session_read env && session_deserialize env
  && session_currentUser env.

Definition cookies_ok (env : Env) : bool :=
  match snd (loadCookiesFromJson (jar_accepts env) (cookies_file env)) with
  | inr _ => cookies_currentUser env
  | inl _ => false
  end.

Definition credentials_ok (env : Env) : bool :=
  bool_decide (account_login env = None /\ login_currentUser env = None
               /\ state_serialize env = None /\ session_write env = None).

(** ** A second sample: likes, system items, a call, an uncached thread

    The sample client with a message of two likes by one user, and
    collaborators that decode the batches of the properties on message
    operations. *)
Module More.

Definition like_of (u : User) : Like := {| userID := user_id u |}.

Definition m3 : Message :=
  {| message_id := "m3"; chatID := "340"; authorID := "1";
     content := Some "yo"; likes := [like_of Sample.bob; like_of Sample.bob] |}.

Definition chat340 : Chat :=
  {| chat_id := "340"; chat_name := Some "A";
     chat_users := [Sample.alice; Sample.bob];
     adminUserIDs := ["1"]; calling := false; pending := false;
     chat_messages := <["m3" := m3]> {[ "m1" := Sample.m1 ]} |}.

Definition live : Client := set_heap [chat340] Sample.live.

Definition joinLog : MessagePayload :=
  {| item_id := "m4"; item_type := "action_log"; item_user_id := "1";
     item_text := Some "alice added carol"; item_likes := None |}.

Definition edited : MessagePayload :=
  {| item_id := "m9"; item_type := "text"; item_user_id := "1";
     item_text := Some "edited"; item_likes := None |}.

Definition liked : MessagePayload :=
  {| item_id := "m1"; item_type := "text"; item_user_id := "1";
     item_text := None; item_likes := Some [like_of Sample.bob] |}.

Definition unliked : MessagePayload :=
  {| item_id := "m3"; item_type := "text"; item_user_id := "1";
     item_text := None; item_likes := Some [like_of Sample.bob] |}.

Definition first : MessagePayload :=
  {| item_id := "a1"; item_type := "text"; item_user_id := "1";
     item_text := Some "one"; item_likes := None |}.

Definition second : MessagePayload :=
  {| item_id := "a2"; item_type := "text"; item_user_id := "2";
     item_text := Some "two"; item_likes := None |}.

Definition ringing : ThreadPayload :=
  {| thread_id := "340"; thread_title := None; thread_users := None;
     admin_user_ids := None; thread_calling := Some true; thread_pending := None |}.

Definition thread341 : ThreadPayload :=
  {| thread_id := "341"; thread_title := Some (Some "C"); thread_users := None;
     admin_user_ids := None; thread_calling := None; thread_pending := None |}.

Definition otherItemPath : string := "/direct_v2/threads/341/items/m".

Definition add (p v : string) : Data := {| op := "add"; path := p; value := v |}.

Definition batches : list (string * list RawMessage) :=
  [ ("system", [Sample.patch "add" Sample.itemPath "joinLog"]);
    ("edit m9", [Sample.patch "replace" Sample.itemPath "edited"]);
    ("like m1", [Sample.patch "replace" Sample.itemPath "liked"]);
    ("unlike m3", [Sample.patch "replace" Sample.itemPath "unliked"]);
    ("promote carol", [Sample.patch "add" Sample.adminPath ""]);
    ("demote carol", [Sample.patch "remove" Sample.adminPath ""]);
    ("two adds", [ {| data := [add otherItemPath "first"; add otherItemPath "second"] |} ]) ].

Definition util : Util :=
  {| JSON_parse_batch := Sample.table batches;
     JSON_parse_thread := Sample.table [("ringing", ringing)];
     JSON_parse_item :=
       Sample.table [("joinLog", joinLog); ("edited", edited); ("liked", liked);
                     ("unliked", unliked); ("first", first); ("second", second)];
     matchInboxThreadPath := Sample.table [(Sample.inboxPath, "340")];
     matchMessagePath :=
       Sample.table [(Sample.itemPath, "340"); (otherItemPath, "341")];
     matchAdminPath := Sample.table [(Sample.adminPath, ("340", "3"))];
     isMessageValid := fun m => bool_decide (is_Some (content m));
     isID := fun q => bool_decide (q ∈ ["1"; "2"; "3"]) |}.

(** The answers to a [login] whose session file is missing, whose cookie
    file holds one good cookie, and whose session cannot be written. *)
Definition sessionid : CookieJson :=
  {| cookie_name := Some "sessionid"; cookie_value := Some "abc";
     cookie_domain := Some ".instagram.com"; cookie_path := None;
     cookie_secure := None; cookie_httpOnly := Some false;
     cookie_expires := None |}.

Definition nodomain : CookieJson :=
  {| cookie_name := Some "csrftoken"; cookie_value := Some "x";
     cookie_domain := None; cookie_path := Some "/"; cookie_secure := None;
     cookie_httpOnly := None; cookie_expires := None |}.

Definition any_cookie (t : ToughCookie) (url : string) : bool := true.

Definition env : Env :=
  {| session_access := false; session_read := true; session_deserialize := true;
     session_currentUser := true;
     cookies_file := inr [sessionid];
     jar_accepts := any_cookie;
     cookies_currentUser := true;
     state_serialize := None;
     session_write := Some "EACCES: permission denied";
     account_login := None;
     login_currentUser := None |}.

(** The same, with a valid session file. *)
Definition env_session : Env :=
  {| session_access := true; session_read := true; session_deserialize := true;
     session_currentUser := true;
     cookies_file := inl RequestError;
     jar_accepts := any_cookie;
     cookies_currentUser := false;
     state_serialize := None;
     session_write := None;
     account_login := Some "bad password";
     login_currentUser := None |}.

(** No session and no cookie file: only the password is left. *)
Definition env_password : Env :=
  {| session_access := false; session_read := true; session_deserialize := true;
     session_currentUser := true;
     cookies_file := inl RequestError;
     jar_accepts := any_cookie;
     cookies_currentUser := true;
     state_serialize := None;
     session_write := Some "EACCES: permission denied";
     account_login := None;
     login_currentUser := None |}.

Definition pendingThread : ThreadPayload :=
  {| thread_id := "500"; thread_title := None; thread_users := None;
     admin_user_ids := None; thread_calling := None;
     thread_pending := Some true |}.

End More.

(** ** Basic facts *)

Section Facts.
Context `{U : Util}.

Lemma set_microtasks_same (s : Client) : set_microtasks (microtasks s) s = s.
Proof. by destruct s. Qed.

Lemma dequeue_enqueue (t : Task) (s : Client) :
  microtasks s = [] -> set_microtasks [] (enqueue t s) = s.
Proof. destruct s; simpl; intros ->; reflexivity. Qed.

Lemma queue_weight_app (q : list Task) (t : Task) :
  queue_weight (q ++ [t]) = queue_weight q + task_weight t.
Proof. induction q as [|x q IH]; simpl; [lia | rewrite IH; lia]. Qed.

Lemma fetchUser_weight (query : string) (cb : UserCb) (s : Client) :
  queue_weight (microtasks (fetchUser query false cb s))
  <= queue_weight (microtasks s) + 1.
Proof.
  unfold fetchUser, fetchUser_id.
  destruct (isID query); simpl; [|lia].
  destruct (cache_users s !! query); simpl; [|lia].
  rewrite queue_weight_app; simpl; lia.
Qed.

Lemma runUserCb_microtasks (cb : UserCb) (u : User) (s : Client) :
  microtasks (runUserCb cb u s) = microtasks s.
Proof. by destruct cb. Qed.

Lemma replaceMessage_weight (l : loc) (chat : Chat) (v : string) (s : Client) :
  queue_weight (microtasks (replaceMessage l chat v s))
  <= queue_weight (microtasks s) + 1.
Proof.
  unfold replaceMessage.
  destruct (JSON_parse_item v) as [p|]; simpl; [|lia].
  destruct (chat_messages chat !! item_id p) as [old|]; simpl; [|lia].
  repeat (case_match; simpl; try lia);
    (etransitivity; [apply fetchUser_weight | simpl; lia]).
Qed.

Lemma addMessage_microtasks (l : loc) (chat : Chat) (t v : string) (s : Client) :
  microtasks (addMessage l chat t v s) = microtasks s.
Proof. unfold addMessage. repeat (case_match; simpl; try done). Qed.

Lemma removeMessage_microtasks (chat : Chat) (v : string) (s : Client) :
  microtasks (removeMessage chat v s) = microtasks s.
Proof. unfold removeMessage. by case_match. Qed.

Lemma runTask_weight (t : Task) (s : Client) :
  queue_weight (microtasks (runTask t s)) + 1
  <= queue_weight (microtasks s) + task_weight t.
Proof.
  destruct t as [cb l|cb u]; simpl.
  - unfold runChatCb. destruct (heap s !! l) as [chat|].
    + destruct cb; simpl; try lia.
      * pose proof (replaceMessage_weight l chat value0 s). lia.
      * etransitivity; [apply Nat.add_le_mono_r, fetchUser_weight|]. simpl. lia.
      * rewrite addMessage_microtasks. lia.
      * etransitivity; [apply Nat.add_le_mono_r, fetchUser_weight|]. simpl. lia.
      * rewrite removeMessage_microtasks. lia.
    + destruct cb; simpl; lia.
  - rewrite runUserCb_microtasks. lia.
Qed.

Lemma queue_weight_nil (q : list Task) : queue_weight q = 0 -> q = [].
Proof. destruct q as [|[]]; simpl; [done|lia|lia]. Qed.

Lemma drain_empties (n : nat) (s : Client) :
  queue_weight (microtasks s) <= n -> microtasks (drain n s) = [].
Proof.
  revert s. induction n as [|n IH]; intros s Hw; simpl.
  - apply queue_weight_nil. lia.
  - destruct (microtasks s) as [|t q] eqn:Hq; [done|].
    apply IH. pose proof (runTask_weight t (set_microtasks q s)) as Hr.
    simpl in *. lia.
Qed.

(** Every macrotask ends with an empty microtask queue. *)
Lemma runMicrotasks_quiescent (s : Client) : microtasks (runMicrotasks s) = [].
Proof. apply drain_empties. lia. Qed.

Lemma step_quiescent (a : Action) (s : Client) : microtasks (fst (step a s)) = [].
Proof. unfold step. destruct (act a s). apply runMicrotasks_quiescent. Qed.

Lemma runMicrotasks_nil (s : Client) : microtasks s = [] -> runMicrotasks s = s.
Proof. unfold runMicrotasks. intros ->. reflexivity. Qed.

Lemma drain_more (n : nat) (s : Client) :
  queue_weight (microtasks s) <= n -> drain (S n) s = drain n s.
Proof.
  revert s. induction n as [|n IH]; intros s Hw.
  - simpl. rewrite (queue_weight_nil (microtasks s)); [done|lia].
  - change (drain (S (S n)) s) with
      (match microtasks s with
       | [] => s
       | t :: q => drain (S n) (runTask t (set_microtasks q s))
       end).
    change (drain (S n) s) with
      (match microtasks s with
       | [] => s
       | t :: q => drain n (runTask t (set_microtasks q s))
       end).
    destruct (microtasks s) as [|t q] eqn:Hq; [done|].
    apply IH. pose proof (runTask_weight t (set_microtasks q s)) as Hr.
    simpl in *. lia.
Qed.

Lemma drain_enough (n : nat) (s : Client) :
  queue_weight (microtasks s) <= n -> drain n s = runMicrotasks s.
Proof.
  unfold runMicrotasks. intros Hw.
  replace n with ((n - queue_weight (microtasks s)) + queue_weight (microtasks s))
    by lia.
  induction (n - queue_weight (microtasks s)) as [|k IH]; [done|].
  simpl Nat.add. rewrite drain_more; [done|lia].
Qed.

(** The drain runs the first task of the queue, then the rest. *)
Lemma runMicrotasks_cons (t : Task) (q : list Task) (s : Client) :
  microtasks s = t :: q ->
  runMicrotasks s = runMicrotasks (runTask t (set_microtasks q s)).
Proof.
  intros Hq. unfold runMicrotasks at 1. rewrite Hq.
  assert (Hpos : exists k, queue_weight (t :: q) = S k).
  { destruct t; simpl; eauto. }
  destruct Hpos as [k Hk]. rewrite Hk. simpl. rewrite Hq.
  apply drain_enough.
  pose proof (runTask_weight t (set_microtasks q s)) as Hr.
  simpl in *. lia.
Qed.

Lemma runMicrotasks_enqueue (t : Task) (s : Client) :
  microtasks s = [] ->
  runMicrotasks (enqueue t s) = runMicrotasks (runTask t s).
Proof.
  intros Hs. rewrite (runMicrotasks_cons t []); [|by simpl; rewrite Hs].
  simpl. by rewrite (dequeue_enqueue t s Hs).
Qed.

Lemma runChatCb_caller (l : loc) (s : Client) : runChatCb cb_caller l s = s.
Proof. unfold runChatCb. by destruct (heap s !! l). Qed.

End Facts.

(** ** fetchChat on a cached chat *)

Section FetchChat.
Context `{U : Util}.

(** C10.  On a chat id present in the chat cache, [fetchChat] without
    [force] issues no request and changes nothing: its promise is resolved
    with the cached chat object (the continuation [cb] is scheduled with the
    cached location, and that is the only difference in the state); called by
    the application it leaves the whole client state as it was, and so does
    calling it twice. *)
Theorem fetchChat_cached_unchanged (s : Client) (chatID : string) (l : loc)
    (cb : ChatCb) :
  cache_chats s !! chatID = Some l ->
  microtasks s = [] ->
  fetchChat chatID false cb s = enqueue (RunChatCb cb l) s
  /\ step (Call_fetchChat chatID false) s = (s, None)
  /\ run [Call_fetchChat chatID false; Call_fetchChat chatID false] s = s.
Proof.
  intros Hc Hq.
  assert (Hf : forall k, fetchChat chatID false k s = enqueue (RunChatCb k l) s).
  { intros k. unfold fetchChat. by rewrite Hc. }
  assert (Hstep : step (Call_fetchChat chatID false) s = (s, None)).
  { unfold step. simpl. rewrite Hf, runMicrotasks_enqueue by done.
    simpl. rewrite runChatCb_caller. by rewrite runMicrotasks_nil. }
  split; [apply Hf|]. split; [done|].
  unfold run. cbn [foldl]. rewrite Hstep. cbn [fst]. by rewrite Hstep.
Qed.

End FetchChat.

(** ** Thread replace: the differ *)

Lemma emitted_emit_all (evs : list Event) (s : Client) :
  emitted (emit_all evs s) = emitted s ++ evs.
Proof.
  revert s. induction evs as [|e evs IH]; intros s.
  - simpl. by rewrite app_nil_r.
  - change (emit_all (e :: evs) s) with (emit_all evs (emit e s)).
    rewrite IH. simpl. by rewrite <- app_assoc.
Qed.

Lemma emit_all_app (xs ys : list Event) (s : Client) :
  emit_all (xs ++ ys) s = emit_all ys (emit_all xs s).
Proof. unfold emit_all. apply foldl_app. Qed.

Lemma emitted_since_app (s s' : Client) (evs : list Event) :
  emitted s' = emitted s ++ evs -> emitted_since s s' = evs.
Proof. unfold emitted_since. intros ->. apply drop_app_length. Qed.

Lemma find_unique {A} (f : A -> bool) (xs : list A) (x : A) :
  x ∈ xs -> f x = true ->
  (forall y, y ∈ xs -> f y = true -> y = x) ->
  find f xs = Some x.
Proof.
  intros Hin Hf Huniq. destruct (find f xs) as [y|] eqn:Hfind.
  - apply find_some in Hfind as [Hy Hfy].
    f_equal. apply Huniq; [by apply list_elem_of_In|done].
  - apply list_elem_of_In in Hin.
    pose proof (find_none f xs Hfind x Hin). congruence.
Qed.

Section ThreadReplace.
Context `{U : Util}.

(** On a cached chat the operation stores the merged chat and emits the
    three differences, in this order. *)
Lemma replaceThread_cached (s : Client) (threadID v : string) (l : loc)
    (oldChat : Chat) (p : ThreadPayload) :
  cache_chats s !! threadID = Some l ->
  heap s !! l = Some oldChat ->
  JSON_parse_thread v = Some p ->
  replaceThread threadID v s =
    (emit_all (nameDiff l oldChat (Chat_patch oldChat p)
               ++ usersDiff l oldChat (Chat_patch oldChat p)
               ++ callDiff l oldChat (Chat_patch oldChat p))
       (set_heap (<[l := Chat_patch oldChat p]> (heap s)) s), None).
Proof.
  intros Hc Hh Hp. unfold replaceThread. rewrite Hc, Hh, Hp.
  cbv zeta. f_equal. rewrite !emit_all_app.
  unfold nameDiff, usersDiff, callDiff.
  repeat (case_match; simpl; try reflexivity).
Qed.

Lemma applyData_replaceThread (d : Data) (threadID : string) (s : Client) :
  op d = "replace" ->
  matchInboxThreadPath (path d) = Some threadID ->
  applyData d s = replaceThread threadID (value d) s.
Proof. intros Hop Hm. unfold applyData. by rewrite Hop, Hm. Qed.

(** C5.  A ['replace'] on the thread path of a cached chat whose merge
    changes the name and leaves the members and the calling flag as they
    were emits exactly one event, [chatNameUpdate] with the chat, the old
    name and the new one; so no [chatUserAdd], [chatUserRemove], [callStart]
    or [callEnd] is emitted. *)
Theorem replace_name_only (d : Data) (s : Client) (threadID : string) (l : loc)
    (oldChat : Chat) (p : ThreadPayload) :
  op d = "replace" ->
  matchInboxThreadPath (path d) = Some threadID ->
  cache_chats s !! threadID = Some l ->
  heap s !! l = Some oldChat ->
  JSON_parse_thread (value d) = Some p ->
  chat_name (Chat_patch oldChat p) <> chat_name oldChat ->
  chat_users (Chat_patch oldChat p) = chat_users oldChat ->
  calling (Chat_patch oldChat p) = calling oldChat ->
  snd (applyData d s) = None
  /\ emitted_since s (fst (applyData d s)) =
       [chatNameUpdate l (chat_name oldChat) (chat_name (Chat_patch oldChat p))]
  /\ heap (fst (applyData d s)) !! l = Some (Chat_patch oldChat p).
Proof.
  intros Hop Hm Hc Hh Hp Hname Husers Hcall.
  rewrite (applyData_replaceThread d threadID) by done.
  rewrite (replaceThread_cached s threadID (value d) l oldChat p) by done.
  cbn [fst snd]. split; [done|]. split.
  - apply emitted_since_app. rewrite emitted_emit_all. cbn [emitted set_heap].
    f_equal. unfold nameDiff, usersDiff, callDiff.
    rewrite bool_decide_eq_false_2 by congruence.
    rewrite Husers, Hcall, Nat.ltb_irrefl.
    by destruct (calling oldChat).
  - assert (Hheap : forall evs s0, heap (emit_all evs s0) = heap s0).
    { induction evs as [|e evs IH]; intros s0; [done|].
      change (emit_all (e :: evs) s0) with (emit_all evs (emit e s0)).
      by rewrite IH. }
    rewrite Hheap. simpl. apply list_lookup_insert_eq.
    by eapply lookup_lt_Some.
Qed.

(** C4.  A ['replace'] on the thread path of a cached chat whose merge
    grows the member collection by one, the merged collection holding
    exactly one user [u] whose id the prior collection lacks, emits exactly
    one membership event, [chatUserAdd] with the chat and [u]; when the
    collection shrinks by one and exactly one prior member [u] is missing
    from the merged collection, it emits exactly one membership event,
    [chatUserRemove] with the chat and [u]. *)
Theorem replace_member_delta (d : Data) (s : Client) (threadID : string) (l : loc)
    (oldChat : Chat) (p : ThreadPayload) (u : User) :
  op d = "replace" ->
  matchInboxThreadPath (path d) = Some threadID ->
  cache_chats s !! threadID = Some l ->
  heap s !! l = Some oldChat ->
  JSON_parse_thread (value d) = Some p ->
  (List.length (chat_users (Chat_patch oldChat p)) = S (List.length (chat_users oldChat)) ->
   u ∈ chat_users (Chat_patch oldChat p) ->
   users_has (chat_users oldChat) (user_id u) = false ->
   (forall v, v ∈ chat_users (Chat_patch oldChat p) ->
              users_has (chat_users oldChat) (user_id v) = false -> v = u) ->
   filter (fun e => membership_event e = true)
          (emitted_since s (fst (applyData d s))) = [chatUserAdd l u])
  /\ (List.length (chat_users oldChat) = S (List.length (chat_users (Chat_patch oldChat p))) ->
      u ∈ chat_users oldChat ->
      users_has (chat_users (Chat_patch oldChat p)) (user_id u) = false ->
      (forall v, v ∈ chat_users oldChat ->
                 users_has (chat_users (Chat_patch oldChat p)) (user_id v) = false ->
                 v = u) ->
      filter (fun e => membership_event e = true)
             (emitted_since s (fst (applyData d s))) = [chatUserRemove l u]).
Proof.
  intros Hop Hm Hc Hh Hp.
  rewrite (applyData_replaceThread d threadID) by done.
  rewrite (replaceThread_cached s threadID (value d) l oldChat p) by done.
  cbn [fst].
  erewrite emitted_since_app;
    [|exact (emitted_emit_all _ (set_heap (<[l := Chat_patch oldChat p]> (heap s)) s))].
  rewrite !filter_app.
  assert (Hn : filter (fun e => membership_event e = true)
                 (nameDiff l oldChat (Chat_patch oldChat p)) = []).
  { unfold nameDiff. by case_match. }
  assert (Hcl : filter (fun e => membership_event e = true)
                  (callDiff l oldChat (Chat_patch oldChat p)) = []).
  { unfold callDiff. by repeat case_match. }
  rewrite Hn, Hcl, app_nil_r. cbn [app]. unfold usersDiff.
  split; intros Hlen Hin Hnew Huniq.
  - rewrite Hlen. rewrite (proj2 (Nat.ltb_lt _ _)) by lia.
    rewrite (find_unique _ _ u).
    + reflexivity.
    + done.
    + by rewrite Hnew.
    + intros v Hv Hfv. apply Huniq; [done|]. by apply negb_true_iff.
  - rewrite Hlen. rewrite (proj2 (Nat.ltb_ge _ _)) by lia.
    rewrite (proj2 (Nat.ltb_lt _ _)) by lia.
    rewrite (find_unique _ _ u).
    + reflexivity.
    + done.
    + by rewrite Hnew.
    + intros v Hv Hfv. apply Huniq; [done|]. by apply negb_true_iff.
Qed.

(** C6.  A ['replace'] on the thread path of a thread id that the chat
    cache lacks builds a chat from the decoded payload, allocates it, inserts
    it in the chat cache under the thread id, and emits nothing; nothing is
    scheduled and nothing else in the client changes. *)
Theorem replace_first_sight (d : Data) (s : Client) (threadID : string)
    (p : ThreadPayload) :
  op d = "replace" ->
  matchInboxThreadPath (path d) = Some threadID ->
  cache_chats s !! threadID = None ->
  JSON_parse_thread (value d) = Some p ->
  applyData d s =
    (set_chats (<[threadID := List.length (heap s)]> (cache_chats s))
       (set_heap (heap s ++ [Chat_new threadID p]) s), None)
  /\ (exists l, cache_chats (fst (applyData d s)) !! threadID = Some l
             /\ heap (fst (applyData d s)) !! l = Some (Chat_new threadID p))
  /\ emitted (fst (applyData d s)) = emitted s.
Proof.
  intros Hop Hm Hc Hp.
  rewrite (applyData_replaceThread d threadID) by done.
  unfold replaceThread. rewrite Hc, Hp. cbn.
  split; [done|]. split; [|done].
  exists (List.length (heap s)). split.
  - apply lookup_insert_eq.
  - rewrite lookup_app_r by lia. by rewrite Nat.sub_diag.
Qed.

End ThreadReplace.

(** ** Deliveries processed while ready *)

Section Deliveries.
Context `{U : Util}.

Lemma handleRealtimeReceive_ready (topic : Topic) (payload : string)
    (ms : list RawMessage) (s : Client) :
  ready s = true ->
  topic_id topic = "146" ->
  JSON_parse_batch payload = Some ms ->
  handleRealtimeReceive topic payload s =
    (forEach_rawMessages ms (emit (rawRealtime topic payload) s), None).
Proof.
  intros Hr Ht Hp. unfold handleRealtimeReceive. by rewrite Hr, Ht, Hp.
Qed.

(** A batch of one raw message with one operation whose synchronous part
    does not throw. *)
Lemma deliver_one (topic : Topic) (payload : string) (d : Data) (s s' : Client) :
  ready s = true ->
  topic_id topic = "146" ->
  JSON_parse_batch payload = Some [ {| data := [d] |} ] ->
  applyData d (emit (rawRealtime topic payload) s) = (s', None) ->
  step (Deliver_realtime topic payload) s = (runMicrotasks s', None).
Proof.
  intros Hr Ht Hp Hd. unfold step, act.
  rewrite (handleRealtimeReceive_ready topic payload _ s Hr Ht Hp).
  simpl. by rewrite Hd.
Qed.


Lemma applyData_remove_admin (d : Data) (threadID userID : string) (s : Client) :
  op d = "remove" ->
  matchAdminPath (path d) = Some (threadID, userID) ->
  applyData d s = (fetchChat threadID false (cb_adminRemove userID) s, None).
Proof. intros Hop Ha. unfold applyData. by rewrite Hop, Ha. Qed.

Lemma fetchChat_cached (chatID : string) (l : loc) (cb : ChatCb) (s : Client) :
  cache_chats s !! chatID = Some l ->
  fetchChat chatID false cb s = enqueue (RunChatCb cb l) s.
Proof. intros Hc. unfold fetchChat. by rewrite Hc. Qed.

Lemma fetchUser_cached (id : string) (u : User) (cb : UserCb) (s : Client) :
  isID id = true ->
  cache_users s !! id = Some u ->
  fetchUser id false cb s = enqueue (RunUserCb cb u) s.
Proof. intros Hi Hc. unfold fetchUser, fetchUser_id. by rewrite Hi, Hc. Qed.

Lemma fetchUser_missing (id : string) (cb : UserCb) (s : Client) :
  isID id = true ->
  cache_users s !! id = None ->
  fetchUser id false cb s = request (await_userMiss id cb) s.
Proof. intros Hi Hc. unfold fetchUser, fetchUser_id. by rewrite Hi, Hc. Qed.

(** The answer to the only request in flight, a user that was not cached. *)
Lemma net_reply_userMiss (id : string) (cb : UserCb) (p : UserPayload) (s : Client) :
  inflight s = [] ->
  microtasks s = [] ->
  step (Net_reply 0 (RespUser p)) (request (await_userMiss id cb) s) =
    (runMicrotasks
       (runUserCb cb (User_new p)
          (set_users (<[id := User_new p]> (cache_users s)) s)), None).
Proof.
  intros Hi Hq. unfold step, act, net_reply. simpl. rewrite Hi. simpl.
  rewrite runMicrotasks_enqueue by (simpl; by rewrite Hq).
  simpl. do 3 f_equal. destruct s; simpl in *; by subst.
Qed.

(** The answer to the only request in flight, a chat that was not cached. *)
Lemma net_reply_chatMiss (id : string) (cb : ChatCb) (p : ThreadPayload) (s : Client) :
  inflight s = [] ->
  microtasks s = [] ->
  step (Net_reply 0 (RespThread p)) (request (await_chatMiss id cb) s) =
    (runMicrotasks
       (runChatCb cb (List.length (heap s))
          (set_chats (<[id := List.length (heap s)]> (cache_chats s))
             (set_heap (heap s ++ [Chat_new id p]) s))), None).
Proof.
  intros Hi Hq. unfold step, act, net_reply. simpl. rewrite Hi. simpl.
  rewrite runMicrotasks_enqueue by (simpl; by rewrite Hq).
  simpl. do 3 f_equal. destruct s; simpl in *; by subst.
Qed.





End Deliveries.

(** ** Texts that are not JSON *)

Section Malformed.
Context `{U : Util}.

Lemma applyData_replace_message (d : Data) (threadID : string) (s : Client) :
  op d = "replace" ->
  matchInboxThreadPath (path d) = None ->
  matchMessagePath (path d) = Some threadID ->
  applyData d s = (fetchChat threadID false (cb_replaceMessage (value d)) s, None).
Proof. intros Hop Hi Hm. unfold applyData. by rewrite Hop, Hi, Hm. Qed.

Lemma applyData_add_message (d : Data) (threadID : string) (s : Client) :
  op d = "add" ->
  matchAdminPath (path d) = None ->
  matchMessagePath (path d) = Some threadID ->
  applyData d s =
    (fetchChat threadID false (cb_addMessage threadID (value d)) s, None).
Proof. intros Hop Ha Hm. unfold applyData. by rewrite Hop, Ha, Hm. Qed.



End Malformed.

(** ** The pending view of the chat cache *)

#[local] Set Warnings "-clear-no-such-hyp".

Lemma paired_growth_refl (s : Client) : paired_growth s s.
Proof. unfold paired_growth. set_solver. Qed.

Lemma paired_growth_trans (s1 s2 s3 : Client) :
  paired_growth s1 s2 -> paired_growth s2 s3 -> paired_growth s1 s3.
Proof. unfold paired_growth. set_solver. Qed.

Lemma same_caches_paired (s s' : Client) : same_caches s s' -> paired_growth s s'.
Proof. unfold same_caches, paired_growth. intros [-> ->]. set_solver. Qed.

Lemma same_caches_trans (s1 s2 s3 : Client) :
  same_caches s1 s2 -> same_caches s2 s3 -> same_caches s1 s3.
Proof. unfold same_caches. intros [? ?] [? ?]. split; congruence. Qed.

Lemma paired_growth_invariant (s s' : Client) :
  paired_growth s s' -> pending_in_chats s -> pending_in_chats s'.
Proof. unfold paired_growth, pending_in_chats. set_solver. Qed.

Create HintDb caches.
#[local] Hint Resolve paired_growth_refl same_caches_paired : caches.

Ltac same_caches_tac := unfold same_caches; repeat (case_match; simpl); auto.

Section PendingChats.
Context `{U : Util}.

Lemma fetchUser_same (q : string) (f : bool) (cb : UserCb) (s : Client) :
  same_caches s (fetchUser q f cb s).
Proof. unfold fetchUser, fetchUser_id. same_caches_tac. Qed.

Lemma fetchUser_id_same (q : string) (f : bool) (cb : UserCb) (s : Client) :
  same_caches s (fetchUser_id q f cb s).
Proof. unfold fetchUser_id. same_caches_tac. Qed.

Lemma fetchChat_same (c : string) (f : bool) (cb : ChatCb) (s : Client) :
  same_caches s (fetchChat c f cb s).
Proof. unfold fetchChat. same_caches_tac. Qed.

Lemma runTask_same (t : Task) (s : Client) : same_caches s (runTask t s).
Proof.
  destruct t as [cb l|cb u]; simpl.
  - unfold runChatCb, replaceMessage, addMessage, removeMessage, fetchUser,
      fetchUser_id.
    same_caches_tac.
  - unfold runUserCb. same_caches_tac.
Qed.

Lemma drain_same (n : nat) (s : Client) : same_caches s (drain n s).
Proof.
  revert s. induction n as [|n IH]; intros s; simpl; [done|].
  destruct (microtasks s) as [|t q]; [done|].
  eapply same_caches_trans; [|apply IH].
  eapply same_caches_trans; [|apply runTask_same]. done.
Qed.

Lemma runMicrotasks_same (s : Client) : same_caches s (runMicrotasks s).
Proof. apply drain_same. Qed.

Lemma replaceThread_paired (t v : string) (s : Client) :
  paired_growth s (fst (replaceThread t v s)).
Proof.
  unfold replaceThread, paired_growth.
  repeat (case_match; simpl); set_solver.
Qed.

Lemma applyData_paired (d : Data) (s : Client) : paired_growth s (fst (applyData d s)).
Proof.
  unfold applyData.
  repeat (case_match; simpl);
    auto using replaceThread_paired, fetchChat_same with caches.
Qed.

Lemma forEach_data_paired (ds : list Data) (s : Client) :
  paired_growth s (fst (forEach_data ds s)).
Proof.
  revert s. induction ds as [|d ds IH]; intros s; simpl; [auto with caches|].
  pose proof (applyData_paired d s) as Hd.
  destruct (applyData d s) as [s' [e|]]; simpl in *; [done|].
  eapply paired_growth_trans; [exact Hd|apply IH].
Qed.

Lemma forEach_rawMessages_paired (ms : list RawMessage) (s : Client) :
  paired_growth s (forEach_rawMessages ms s).
Proof.
  revert s. induction ms as [|m ms IH]; intros s; simpl; [auto with caches|].
  pose proof (forEach_data_paired (data m) s) as Hd.
  destruct (forEach_data (data m) s) as [s' [e|]]; simpl in *;
    (eapply paired_growth_trans; [exact Hd|]);
    [eapply paired_growth_trans; [|apply IH]; by apply same_caches_paired | apply IH].
Qed.

Lemma handleRealtimeReceive_paired (topic : Topic) (payload : string) (s : Client) :
  paired_growth s (fst (handleRealtimeReceive topic payload s)).
Proof.
  unfold handleRealtimeReceive.
  repeat (case_match; simpl); try (by apply same_caches_paired).
  eapply paired_growth_trans; [|apply forEach_rawMessages_paired].
  by apply same_caches_paired.
Qed.

Lemma handleFbnsReceive_same (d : Push) (s : Client) :
  same_caches s (handleFbnsReceive d s).
Proof.
  unfold handleFbnsReceive, fetchUser, fetchUser_id. same_caches_tac.
Qed.

(** Both loops that fill the pending-chats cache store the chat object
    under the same id in the chats cache. *)
Lemma refreshThread_paired (thread : ThreadPayload) (s : Client) :
  paired_growth s (refreshThread thread s).
Proof.
  unfold refreshThread, paired_growth. simpl. rewrite !dom_insert_L. set_solver.
Qed.

Lemma loadThread_paired (thread : ThreadPayload) (s : Client) :
  paired_growth s (loadThread thread s).
Proof.
  unfold loadThread, paired_growth. simpl.
  case_match; simpl; rewrite ?dom_insert_L; set_solver.
Qed.

Lemma foldl_paired (f : ThreadPayload -> Client -> Client)
    (threads : list ThreadPayload) (s : Client) :
  (forall t s0, paired_growth s0 (f t s0)) ->
  paired_growth s (foldl (fun acc thread => f thread acc) s threads).
Proof.
  intros Hf. revert s.
  induction threads as [|t ts IH]; intros s; simpl; [auto with caches|].
  eapply paired_growth_trans; [apply Hf|apply IH].
Qed.

Lemma resume_paired (a : Awaiter) (r : Response) (s : Client) :
  paired_growth s (resume a r s).
Proof.
  destruct a, r; simpl;
    try (apply same_caches_paired; unfold fetchUser_id; same_caches_tac; fail).
  - unfold paired_growth. simpl. rewrite dom_insert_L. set_solver.
  - pose proof (foldl_paired refreshThread threads s refreshThread_paired) as Hf.
    case_match; simpl; [|done].
    eapply paired_growth_trans; [exact Hf|]. by apply same_caches_paired.
  - unfold paired_growth. simpl. rewrite dom_insert_L. set_solver.
Qed.

Lemma net_reply_paired (i : nat) (r : Response) (s : Client) :
  paired_growth s (net_reply i r s).
Proof.
  unfold net_reply. case_match; [|auto with caches].
  eapply paired_growth_trans; [|apply resume_paired]. by apply same_caches_paired.
Qed.

Lemma login_load_paired (me : User) (threads : list ThreadPayload) (s : Client) :
  paired_growth s (login_load me threads s).
Proof.
  unfold login_load.
  eapply paired_growth_trans; [|apply (foldl_paired loadThread), loadThread_paired].
  by apply same_caches_paired.
Qed.

Lemma replayEvent_paired (event : list JsVal) (s : Client) :
  paired_growth s (fst (replayEvent event s)).
Proof.
  unfold replayEvent, handleRealtimeReceive_undefined, handleFbnsReceive_undefined.
  repeat (case_match; simpl);
    auto using handleRealtimeReceive_paired, handleFbnsReceive_same with caches;
    by apply same_caches_paired.
Qed.

Lemma replay_paired (events : list (list JsVal)) (i : nat) (s : Client) :
  paired_growth s (fst (replay i events s)).
Proof.
  revert i s. induction events as [|e es IH]; intros i s; simpl; [auto with caches|].
  pose proof (replayEvent_paired e
                (set_eventsToReplay (<[i := tail e]> (eventsToReplay s)) s)) as Hd.
  destruct (replayEvent e _) as [s' [err|]]; simpl in *; [done|].
  eapply paired_growth_trans; [exact Hd|apply IH].
Qed.

Lemma act_paired (a : Action) (s : Client) : paired_growth s (fst (act a s)).
Proof.
  destruct a; simpl;
    auto using handleRealtimeReceive_paired, handleFbnsReceive_same,
      net_reply_paired, login_load_paired, fetchChat_same, fetchUser_same
      with caches;
    try (by apply same_caches_paired).
  - unfold login_ready.
    pose proof (replay_paired
                  (eventsToReplay (emit connected (set_ready true s))) 0
                  (emit connected (set_ready true s))) as Hr.
    destruct (replay 0 _ _) as [s' [e|]]; simpl in *; done.
  - unfold _patchOrCreateUser. apply same_caches_paired. same_caches_tac.
Qed.

Lemma step_paired (a : Action) (s : Client) : paired_growth s (fst (step a s)).
Proof.
  unfold step. pose proof (act_paired a s) as Ha.
  destruct (act a s) as [s' e]; simpl in *.
  eapply paired_growth_trans; [exact Ha|].
  apply same_caches_paired, runMicrotasks_same.
Qed.

(** C9.  The pending-chats cache is a view of the chats cache: the
    invariant holds of a new client and every operation of the engine
    preserves it, so it holds after any sequence of operations; no
    operation drops an id from the chats cache or adds to the pending-chats
    cache an id that the chats cache lacks; and the two loops that insert
    into the pending-chats cache (the chat load of [login] and the pending
    refresh) store the same chat object under the same id in the chats
    cache. *)
Theorem pending_chats_view :
  pending_in_chats Client_new
  /\ (forall a s, pending_in_chats s -> pending_in_chats (fst (step a s)))
  /\ (forall acts, pending_in_chats (run acts Client_new))
  /\ (forall a s, paired_growth s (fst (step a s)))
  /\ (forall thread s k l,
        cache_pendingChats (loadThread thread s) !! k = Some l ->
        cache_pendingChats s !! k = Some l
        \/ cache_chats (loadThread thread s) !! k = Some l)
  /\ (forall thread s k l,
        cache_pendingChats (refreshThread thread s) !! k = Some l ->
        cache_pendingChats s !! k = Some l
        \/ cache_chats (refreshThread thread s) !! k = Some l).
Proof.
  assert (Hstep : forall a s, pending_in_chats s -> pending_in_chats (fst (step a s))).
  { intros a s. apply paired_growth_invariant, step_paired. }
  assert (Hnew : pending_in_chats Client_new).
  { unfold pending_in_chats. simpl. set_solver. }
  repeat split; try done.
  - intros acts. unfold run.
    assert (Hrun : forall s, pending_in_chats s ->
              pending_in_chats (foldl (fun acc a => fst (step a acc)) s acts)).
    { induction acts as [|a acts IH]; intros s Hs; simpl; [done|].
      apply IH. by apply Hstep. }
    by apply Hrun.
  - apply step_paired.
  - apply step_paired.
  - intros thread s k l. unfold loadThread. simpl.
    case_match; simpl; [|auto].
    destruct (decide (thread_id thread = k)) as [->|Hne].
    + rewrite !lookup_insert_eq. auto.
    + rewrite lookup_insert_ne by done. auto.
  - intros thread s k l. unfold refreshThread. simpl.
    destruct (decide (thread_id thread = k)) as [->|Hne].
    + rewrite !lookup_insert_eq. auto.
    + rewrite lookup_insert_ne by done. auto.
Qed.

End PendingChats.

(** ** The caches name allocated chats *)

Lemma grows_refl (s : Client) : grows s s.
Proof. unfold grows. auto. Qed.

Lemma grows_trans (s1 s2 s3 : Client) : grows s1 s2 -> grows s2 s3 -> grows s1 s3.
Proof.
  unfold grows. intros (Hl & Hc & Hp) (Hl' & Hc' & Hp'). split; [lia|]. split.
  - intros id l H. destruct (Hc' id l H) as [H'|]; [|auto].
    destruct (Hc id l H'); [auto|right; lia].
  - intros id l H. destruct (Hp' id l H) as [H'|]; [|auto].
    destruct (Hp id l H'); [auto|right; lia].
Qed.

Lemma same_shape_grows (s s' : Client) : same_shape s s' -> grows s s'.
Proof.
  unfold same_shape, same_caches, grows. intros [[-> ->] ->]. auto.
Qed.

Lemma same_shape_trans (s1 s2 s3 : Client) :
  same_shape s1 s2 -> same_shape s2 s3 -> same_shape s1 s3.
Proof.
  unfold same_shape. intros [? ?] [? ?]. split; [|congruence].
  by eapply same_caches_trans.
Qed.

Lemma grows_allocated (s s' : Client) : grows s s' -> allocated s -> allocated s'.
Proof.
  unfold grows, allocated. intros (Hl & Hc & Hp) [Ac Ap]. split.
  - intros id l H. destruct (Hc id l H) as [H'|]; [|done].
    specialize (Ac id l H'). lia.
  - intros id l H. destruct (Hp id l H) as [H'|]; [|done].
    specialize (Ap id l H'). lia.
Qed.

Ltac same_shape_tac :=
  unfold same_shape, same_caches;
  repeat (case_match; simpl); rewrite ?length_insert; auto.

(** Storing at a fresh location of the grown heap. *)
Lemma insert_fresh_grows (m : gmap string loc) (k : string) (n n' : nat) :
  n < n' ->
  forall id l, <[k := n]> m !! id = Some l -> m !! id = Some l \/ l < n'.
Proof.
  intros Hn id l. destruct (decide (k = id)) as [->|Hne].
  - rewrite lookup_insert_eq. intros [= <-]. auto.
  - rewrite lookup_insert_ne by done. auto.
Qed.

Section Allocated.
Context `{U : Util}.

Lemma fetchUser_shape (q : string) (f : bool) (cb : UserCb) (s : Client) :
  same_shape s (fetchUser q f cb s).
Proof. unfold fetchUser, fetchUser_id. same_shape_tac. Qed.

Lemma fetchChat_shape (c : string) (f : bool) (cb : ChatCb) (s : Client) :
  same_shape s (fetchChat c f cb s).
Proof. unfold fetchChat. same_shape_tac. Qed.

Lemma runTask_shape (t : Task) (s : Client) : same_shape s (runTask t s).
Proof.
  destruct t as [cb l|cb u]; simpl.
  - unfold runChatCb, replaceMessage, addMessage, removeMessage, fetchUser,
      fetchUser_id.
    same_shape_tac.
  - unfold runUserCb. same_shape_tac.
Qed.

Lemma drain_shape (n : nat) (s : Client) : same_shape s (drain n s).
Proof.
  revert s. induction n as [|n IH]; intros s; simpl; [done|].
  destruct (microtasks s) as [|t q]; [done|].
  eapply same_shape_trans; [|apply IH].
  eapply same_shape_trans; [|apply runTask_shape]. done.
Qed.

Lemma replaceThread_grows (t v : string) (s : Client) :
  grows s (fst (replaceThread t v s)).
Proof.
  unfold replaceThread.
  repeat (case_match; simpl); try apply grows_refl;
    try (apply same_shape_grows; unfold same_shape, same_caches; simpl;
         rewrite ?length_insert; auto; fail).
  unfold grows. simpl. rewrite length_app. simpl. split; [lia|]. split; [|auto].
  apply insert_fresh_grows. lia.
Qed.

Lemma applyData_grows (d : Data) (s : Client) : grows s (fst (applyData d s)).
Proof.
  unfold applyData.
  repeat (case_match; simpl);
    auto using replaceThread_grows, grows_refl, same_shape_grows, fetchChat_shape.
Qed.

Lemma forEach_data_grows (ds : list Data) (s : Client) :
  grows s (fst (forEach_data ds s)).
Proof.
  revert s. induction ds as [|d ds IH]; intros s; simpl; [apply grows_refl|].
  pose proof (applyData_grows d s) as Hd.
  destruct (applyData d s) as [s' [e|]]; simpl in *; [done|].
  eapply grows_trans; [exact Hd|apply IH].
Qed.

Lemma forEach_rawMessages_grows (ms : list RawMessage) (s : Client) :
  grows s (forEach_rawMessages ms s).
Proof.
  revert s. induction ms as [|m ms IH]; intros s; simpl; [apply grows_refl|].
  pose proof (forEach_data_grows (data m) s) as Hd.
  destruct (forEach_data (data m) s) as [s' [e|]]; simpl in *;
    (eapply grows_trans; [exact Hd|]); [|apply IH].
  eapply grows_trans; [|apply IH]. by apply same_shape_grows.
Qed.

Lemma handleRealtimeReceive_grows (topic : Topic) (payload : string) (s : Client) :
  grows s (fst (handleRealtimeReceive topic payload s)).
Proof.
  unfold handleRealtimeReceive.
  repeat (case_match; simpl); try (by apply same_shape_grows).
  eapply grows_trans; [|apply forEach_rawMessages_grows].
  by apply same_shape_grows.
Qed.

Lemma handleFbnsReceive_shape (d : Push) (s : Client) :
  same_shape s (handleFbnsReceive d s).
Proof. unfold handleFbnsReceive, fetchUser, fetchUser_id. same_shape_tac. Qed.

Lemma refreshThread_grows (thread : ThreadPayload) (s : Client) :
  grows s (refreshThread thread s).
Proof.
  unfold refreshThread, grows. simpl. rewrite length_app. simpl.
  split; [lia|]. split; apply insert_fresh_grows; lia.
Qed.

Lemma loadThread_grows (thread : ThreadPayload) (s : Client) :
  grows s (loadThread thread s).
Proof.
  unfold loadThread, grows. simpl.
  case_match; simpl; rewrite length_app; simpl;
    (split; [lia|]); split; auto; apply insert_fresh_grows; lia.
Qed.

Lemma foldl_grows (f : ThreadPayload -> Client -> Client)
    (threads : list ThreadPayload) (s : Client) :
  (forall t s0, grows s0 (f t s0)) ->
  grows s (foldl (fun acc thread => f thread acc) s threads).
Proof.
  intros Hf. revert s.
  induction threads as [|t ts IH]; intros s; simpl; [apply grows_refl|].
  eapply grows_trans; [apply Hf|apply IH].
Qed.

Lemma resume_grows (a : Awaiter) (r : Response) (s : Client) :
  grows s (resume a r s).
Proof.
  destruct a, r; simpl;
    try (apply same_shape_grows; unfold fetchUser_id; same_shape_tac; fail).
  - unfold grows. simpl. rewrite length_app. simpl. split; [lia|]. split; [|auto].
    apply insert_fresh_grows. lia.
  - pose proof (foldl_grows refreshThread threads s refreshThread_grows) as Hf.
    case_match; simpl; [|done].
    eapply grows_trans; [exact Hf|]. by apply same_shape_grows.
  - unfold grows. simpl. rewrite length_app. simpl. split; [lia|]. split; [|auto].
    apply insert_fresh_grows. lia.
Qed.

Lemma replayEvent_grows (event : list JsVal) (s : Client) :
  grows s (fst (replayEvent event s)).
Proof.
  unfold replayEvent, handleRealtimeReceive_undefined, handleFbnsReceive_undefined.
  repeat (case_match; simpl);
    auto using handleRealtimeReceive_grows, handleFbnsReceive_shape,
      grows_refl, same_shape_grows;
    by apply same_shape_grows.
Qed.

Lemma replay_grows (events : list (list JsVal)) (i : nat) (s : Client) :
  grows s (fst (replay i events s)).
Proof.
  revert i s. induction events as [|e es IH]; intros i s; simpl; [apply grows_refl|].
  pose proof (replayEvent_grows e
                (set_eventsToReplay (<[i := tail e]> (eventsToReplay s)) s)) as Hd.
  destruct (replayEvent e _) as [s' [err|]]; simpl in *; [done|].
  eapply grows_trans; [exact Hd|apply IH].
Qed.

Lemma act_grows (a : Action) (s : Client) : grows s (fst (act a s)).
Proof.
  destruct a; simpl;
    auto using handleRealtimeReceive_grows, handleFbnsReceive_shape,
      fetchChat_shape, fetchUser_shape, same_shape_grows, grows_refl;
    try (by apply same_shape_grows).
  - unfold net_reply. case_match; [|apply grows_refl].
    eapply grows_trans; [|apply resume_grows]. by apply same_shape_grows.
  - unfold login_load.
    eapply grows_trans; [|apply (foldl_grows loadThread), loadThread_grows].
    by apply same_shape_grows.
  - unfold login_ready.
    pose proof (replay_grows
                  (eventsToReplay (emit connected (set_ready true s))) 0
                  (emit connected (set_ready true s))) as Hr.
    destruct (replay 0 _ _) as [s' [e|]]; simpl in *; done.
  - unfold _patchOrCreateUser. apply same_shape_grows. same_shape_tac.
Qed.

Lemma step_grows (a : Action) (s : Client) : grows s (fst (step a s)).
Proof.
  unfold step. pose proof (act_grows a s) as Ha.
  destruct (act a s) as [s' e]; simpl in *.
  eapply grows_trans; [exact Ha|].
  apply same_shape_grows, drain_shape.
Qed.

(** In every state the engine reaches from a new client, an id of either
    cache names a chat of the heap. *)
Lemma run_allocated (acts : list Action) (s : Client) :
  allocated s -> allocated (run acts s).
Proof.
  revert s. induction acts as [|a acts IH]; intros s Hs; [done|].
  apply (IH (fst (step a s))). by eapply grows_allocated; [apply step_grows|].
Qed.

Lemma reachable_chat_allocated (acts : list Action) (id : string) (l : loc) :
  cache_chats (run acts Client_new) !! id = Some l ->
  is_Some (heap (run acts Client_new) !! l).
Proof.
  intros Hc. apply lookup_lt_is_Some.
  assert (Hnew : allocated Client_new) by (split; intros ? ? H; done).
  by apply (run_allocated acts Client_new Hnew) in Hc.
Qed.

End Allocated.

(** ** The pre-ready buffer and its replay *)

Section Replay.
Context `{U : Util}.

Lemma set_eventsToReplay_twice (q q' : list (list JsVal)) (s : Client) :
  set_eventsToReplay q (set_eventsToReplay q' s) = set_eventsToReplay q s.
Proof. reflexivity. Qed.

Lemma set_eventsToReplay_same (s : Client) :
  set_eventsToReplay (eventsToReplay s) s = s.
Proof. by destruct s. Qed.


(** While the client is not ready a delivery only grows the buffer. *)
Lemma step_buffers (e : Inbound) (s : Client) :
  ready s = false ->
  microtasks s = [] ->
  step (deliver e) s =
    (set_eventsToReplay (eventsToReplay s ++ [entry e]) s, None).
Proof.
  intros Hr Hq. unfold step.
  destruct e; simpl; unfold handleRealtimeReceive, handleFbnsReceive;
    rewrite Hr; simpl; by rewrite runMicrotasks_nil.
Qed.

Lemma run_buffers (es : list Inbound) (s : Client) :
  ready s = false ->
  microtasks s = [] ->
  run (map deliver es) s =
    set_eventsToReplay (eventsToReplay s ++ map entry es) s.
Proof.
  revert s. induction es as [|e es IH]; intros s Hr Hq; simpl.
  - rewrite app_nil_r. by rewrite set_eventsToReplay_same.
  - unfold run in *. cbn [foldl]. rewrite step_buffers by done. cbn [fst].
    rewrite IH by done. simpl. by rewrite <- app_assoc.
Qed.

(** The handlers of a ready client neither read nor write the buffer. *)
Lemma fetchChat_frame (c : string) (f : bool) (cb : ChatCb)
    (q : list (list JsVal)) (s : Client) :
  fetchChat c f cb (set_eventsToReplay q s) =
  set_eventsToReplay q (fetchChat c f cb s).
Proof. unfold fetchChat. simpl. by repeat case_match. Qed.

Lemma fetchUser_frame (c : string) (f : bool) (cb : UserCb)
    (q : list (list JsVal)) (s : Client) :
  fetchUser c f cb (set_eventsToReplay q s) =
  set_eventsToReplay q (fetchUser c f cb s).
Proof. unfold fetchUser, fetchUser_id. simpl. by repeat case_match. Qed.

Lemma replaceThread_frame (t v : string) (q : list (list JsVal)) (s : Client) :
  replaceThread t v (set_eventsToReplay q s) =
  (set_eventsToReplay q (fst (replaceThread t v s)), snd (replaceThread t v s)).
Proof. unfold replaceThread. simpl. by repeat (case_match; simpl). Qed.

Lemma applyData_frame (d : Data) (q : list (list JsVal)) (s : Client) :
  applyData d (set_eventsToReplay q s) =
  (set_eventsToReplay q (fst (applyData d s)), snd (applyData d s)).
Proof.
  unfold applyData.
  repeat (case_match; simpl);
    rewrite ?fetchChat_frame, ?replaceThread_frame; done.
Qed.

Lemma forEach_data_frame (ds : list Data) (q : list (list JsVal)) (s : Client) :
  forEach_data ds (set_eventsToReplay q s) =
  (set_eventsToReplay q (fst (forEach_data ds s)), snd (forEach_data ds s)).
Proof.
  revert s. induction ds as [|d ds IH]; intros s; simpl; [done|].
  rewrite applyData_frame.
  destruct (applyData d s) as [s' [e|]]; simpl; [done|apply IH].
Qed.

Lemma forEach_rawMessages_frame (ms : list RawMessage) (q : list (list JsVal))
    (s : Client) :
  forEach_rawMessages ms (set_eventsToReplay q s) =
  set_eventsToReplay q (forEach_rawMessages ms s).
Proof.
  revert s. induction ms as [|m ms IH]; intros s; simpl; [done|].
  rewrite forEach_data_frame.
  destruct (forEach_data (data m) s) as [s' [e|]]; simpl; [|apply IH].
  by rewrite <- IH.
Qed.

Lemma handle_frame (e : Inbound) (q : list (list JsVal)) (s : Client) :
  ready s = true ->
  handle e (set_eventsToReplay q s) =
  (set_eventsToReplay q (fst (handle e s)), snd (handle e s)).
Proof.
  intros Hr. destruct e as [topic payload|d]; unfold handle; simpl.
  - unfold handleRealtimeReceive. simpl. rewrite Hr. simpl.
    repeat (case_match; simpl); try done.
    by rewrite <- forEach_rawMessages_frame.
  - unfold handleFbnsReceive. simpl. rewrite Hr. simpl.
    repeat (case_match; simpl); rewrite <- ?fetchUser_frame; done.
Qed.

(** They leave the client ready. *)
Lemma fetchChat_ready (c : string) (f : bool) (cb : ChatCb) (s : Client) :
  ready (fetchChat c f cb s) = ready s.
Proof. unfold fetchChat. by repeat case_match. Qed.

Lemma fetchUser_ready (c : string) (f : bool) (cb : UserCb) (s : Client) :
  ready (fetchUser c f cb s) = ready s.
Proof. unfold fetchUser, fetchUser_id. by repeat case_match. Qed.

Lemma applyData_ready (d : Data) (s : Client) :
  ready (fst (applyData d s)) = ready s.
Proof.
  unfold applyData, replaceThread.
  repeat (case_match; simpl); rewrite ?fetchChat_ready; done.
Qed.

Lemma forEach_data_ready (ds : list Data) (s : Client) :
  ready (fst (forEach_data ds s)) = ready s.
Proof.
  revert s. induction ds as [|d ds IH]; intros s; simpl; [done|].
  pose proof (applyData_ready d s) as Hd.
  destruct (applyData d s) as [s' [e|]]; simpl in *; [done|].
  by rewrite IH.
Qed.

Lemma forEach_rawMessages_ready (ms : list RawMessage) (s : Client) :
  ready (forEach_rawMessages ms s) = ready s.
Proof.
  revert s. induction ms as [|m ms IH]; intros s; simpl; [done|].
  pose proof (forEach_data_ready (data m) s) as Hd.
  destruct (forEach_data (data m) s) as [s' [e|]]; simpl in *; by rewrite IH.
Qed.

Lemma handle_ready (e : Inbound) (s : Client) :
  ready s = true -> ready (fst (handle e s)) = true.
Proof.
  intros Hr. destruct e as [topic payload|d]; unfold handle; simpl.
  - unfold handleRealtimeReceive. rewrite Hr. simpl.
    repeat (case_match; simpl); rewrite ?forEach_rawMessages_ready; done.
  - unfold handleFbnsReceive. rewrite Hr. simpl.
    repeat (case_match; simpl); rewrite ?fetchUser_ready; done.
Qed.

Lemma handle_no_throw (e : Inbound) (s : Client) :
  ready s = true -> throws e = false -> snd (handle e s) = None.
Proof.
  intros Hr Ht. destruct e as [topic payload|d]; unfold handle; simpl; [|done].
  unfold handleRealtimeReceive. rewrite Hr. simpl. simpl in Ht.
  destruct (String.eqb (topic_id topic) "146"); [|done].
  destruct (JSON_parse_batch payload); [done|].
  by vm_compute in Ht.
Qed.

Lemma handle_all_frame (es : list Inbound) (q : list (list JsVal)) (s : Client) :
  ready s = true ->
  handle_all es (set_eventsToReplay q s) = set_eventsToReplay q (handle_all es s).
Proof.
  revert s. induction es as [|e es IH]; intros s Hr; [done|].
  unfold handle_all in *. cbn [foldl]. rewrite handle_frame by done. cbn [fst].
  apply IH. by apply handle_ready.
Qed.

Lemma handle_all_ready (es : list Inbound) (s : Client) :
  ready s = true -> ready (handle_all es s) = true.
Proof.
  revert s. induction es as [|e es IH]; intros s Hr; [done|].
  unfold handle_all in *. cbn [foldl]. apply IH. by apply handle_ready.
Qed.


Lemma replayEvent_entry (e : Inbound) (s : Client) :
  replayEvent (entry e) s = handle e s.
Proof. by destruct e. Qed.







End Replay.

Section ReplayEquivalence.
Context `{U : Util}.

(** Microtasks neither touch the buffer nor the readiness flag. *)
Lemma runTask_buffer (t : Task) (s : Client) :
  eventsToReplay (runTask t s) = eventsToReplay s
  /\ ready (runTask t s) = ready s.
Proof.
  destruct t as [cb l|cb u]; simpl.
  - unfold runChatCb, replaceMessage, addMessage, removeMessage, fetchUser,
      fetchUser_id.
    repeat (case_match; simpl); done.
  - unfold runUserCb. by case_match.
Qed.

Lemma drain_buffer (n : nat) (s : Client) :
  eventsToReplay (drain n s) = eventsToReplay s /\ ready (drain n s) = ready s.
Proof.
  revert s. induction n as [|n IH]; intros s; simpl; [done|].
  destruct (microtasks s) as [|t q]; [done|].
  destruct (IH (runTask t (set_microtasks q s))) as [-> ->].
  apply (runTask_buffer t (set_microtasks q s)).
Qed.



End ReplayEquivalence.

(** ** Further behaviour of the realtime handler *)

Section Ignored.
Context `{U : Util}.

Lemma applyData_unmatched (d : Data) (s : Client) :
  unmatched d = true -> applyData d s = (s, None).
Proof.
  unfold unmatched, applyData. intros Hu.
  repeat (case_match; simpl in *; try done);
    repeat match goal with
      | H : _ && _ = true |- _ => apply andb_true_iff in H as [? ?]
      | H : negb _ = true |- _ => apply negb_true_iff in H
      | H : bool_decide _ = false |- _ => apply bool_decide_eq_false_1 in H
      | H : ~ is_Some (Some _) |- _ => exfalso; apply H; by eexists
      end; done.
Qed.

Lemma forEach_data_unmatched (ds : list Data) (s : Client) :
  Forall (fun d => unmatched d = true) ds -> forEach_data ds s = (s, None).
Proof.
  induction 1 as [|d ds Hd _ IH]; simpl; [done|].
  by rewrite applyData_unmatched.
Qed.

Lemma forEach_rawMessages_unmatched (ms : list RawMessage) (s : Client) :
  Forall (fun m => Forall (fun d => unmatched d = true) (data m)) ms ->
  forEach_rawMessages ms s = s.
Proof.
  induction 1 as [|m ms Hm _ IH]; simpl; [done|].
  by rewrite forEach_data_unmatched.
Qed.

(** X1.  A delivery processed while ready emits the raw event and nothing
    else, changes no cache and throws nothing, when its topic is not 146
    (the payload is then not even parsed: it need not be JSON), or when
    every operation of its batch has an [op] other than replace, add and
    remove or a path that none of the matchers tried for its [op] accepts. *)
Theorem ignored_delivery (s : Client) (topic : Topic) (payload : string) :
  ready s = true ->
  microtasks s = [] ->
  (topic_id topic <> "146" ->
     step (Deliver_realtime topic payload) s =
       (emit (rawRealtime topic payload) s, None))
  /\ (forall ms,
        topic_id topic = "146" ->
        JSON_parse_batch payload = Some ms ->
        Forall (fun m => Forall (fun d => unmatched d = true) (data m)) ms ->
        step (Deliver_realtime topic payload) s =
          (emit (rawRealtime topic payload) s, None)).
Proof.
  intros Hr Hq. split.
  - intros Ht. unfold step, act, handleRealtimeReceive. rewrite Hr. simpl.
    rewrite (proj2 (String.eqb_neq _ _) Ht). by rewrite runMicrotasks_nil.
  - intros ms Ht Hp Hms. unfold step, act.
    rewrite (handleRealtimeReceive_ready topic payload ms s) by done.
    rewrite forEach_rawMessages_unmatched by done.
    by rewrite runMicrotasks_nil.
Qed.

End Ignored.

Section MessageOperations.
Context `{U : Util}.

(** A batch of one operation that goes through [fetchChat(..).then] on a
    cached chat: the callback runs on the cached chat when the handler has
    returned. *)
Lemma deliver_callback (topic : Topic) (payload : string) (d : Data)
    (threadID : string) (l : loc) (cb : ChatCb) (s : Client) :
  ready s = true ->
  microtasks s = [] ->
  topic_id topic = "146" ->
  JSON_parse_batch payload = Some [ {| data := [d] |} ] ->
  (forall s0, applyData d s0 = (fetchChat threadID false cb s0, None)) ->
  cache_chats s !! threadID = Some l ->
  step (Deliver_realtime topic payload) s =
    (runMicrotasks (runChatCb cb l (emit (rawRealtime topic payload) s)), None).
Proof.
  intros Hr Hq Ht Hp Hd Hc.
  erewrite deliver_one; [|done|done|done|].
  2:{ rewrite Hd. by rewrite (fetchChat_cached threadID l). }
  by rewrite runMicrotasks_enqueue by (simpl; by rewrite Hq).
Qed.

(** X2.  A message ['add'] whose item type is [action_log] or
    [video_call_event] is discarded: the delivery emits the raw event only,
    stores no message and changes nothing else. *)
Theorem system_item_discarded (s : Client) (topic : Topic) (payload : string)
    (d : Data) (threadID : string) (l : loc) (chat : Chat) (mp : MessagePayload) :
  ready s = true ->
  microtasks s = [] ->
  topic_id topic = "146" ->
  JSON_parse_batch payload = Some [ {| data := [d] |} ] ->
  op d = "add" ->
  matchAdminPath (path d) = None ->
  matchMessagePath (path d) = Some threadID ->
  cache_chats s !! threadID = Some l ->
  heap s !! l = Some chat ->
  JSON_parse_item (value d) = Some mp ->
  discarded_item mp = true ->
  step (Deliver_realtime topic payload) s =
    (emit (rawRealtime topic payload) s, None).
Proof.
  intros Hr Hq Ht Hp Hop Ha Hm Hc Hh Hv Hdis.
  rewrite (deliver_callback topic payload d threadID l
             (cb_addMessage threadID (value d))); try done.
  2:{ intros s0. by apply applyData_add_message. }
  unfold runChatCb. simpl. rewrite Hh. unfold addMessage. rewrite Hv.
  unfold discarded_item in Hdis. rewrite Hdis. by rewrite runMicrotasks_nil.
Qed.

(** X3.  A message ['add'] of any other item type on a cached chat stores
    the new message in the chat's message mapping under its item id
    (replacing an entry of that id, leaving the other entries), and emits
    exactly one [messageCreate] with it when [isMessageValid] accepts it and
    nothing when it does not; the message is stored in both cases. *)
Theorem message_add_stores (s : Client) (topic : Topic) (payload : string)
    (d : Data) (threadID : string) (l : loc) (chat : Chat) (mp : MessagePayload) :
  ready s = true ->
  microtasks s = [] ->
  topic_id topic = "146" ->
  JSON_parse_batch payload = Some [ {| data := [d] |} ] ->
  op d = "add" ->
  matchAdminPath (path d) = None ->
  matchMessagePath (path d) = Some threadID ->
  cache_chats s !! threadID = Some l ->
  heap s !! l = Some chat ->
  JSON_parse_item (value d) = Some mp ->
  discarded_item mp = false ->
  let message := Message_new threadID mp in
  let s' := fst (step (Deliver_realtime topic payload) s) in
  emitted_since s s' =
    rawRealtime topic payload
    :: (if isMessageValid message then [messageCreate message] else [])
  /\ (exists chat', heap s' !! l = Some chat'
        /\ chat_messages chat' !! item_id mp = Some message
        /\ forall k, k <> item_id mp ->
             chat_messages chat' !! k = chat_messages chat !! k)
  /\ cache_chats s' = cache_chats s.
Proof.
  intros Hr Hq Ht Hp Hop Ha Hm Hc Hh Hv Hdis message s'. subst s'.
  rewrite (deliver_callback topic payload d threadID l
             (cb_addMessage threadID (value d))); try done.
  2:{ intros s0. by apply applyData_add_message. }
  unfold runChatCb. simpl. rewrite Hh. unfold addMessage. rewrite Hv.
  unfold discarded_item in Hdis. rewrite Hdis.
  fold message. cbn [fst].
  assert (Hl : l < List.length (heap s)) by (by eapply lookup_lt_Some).
  destruct (isMessageValid message);
    rewrite runMicrotasks_nil by (simpl; done);
    (split; [apply emitted_since_app; simpl; by rewrite <- ?app_assoc|]);
    (split; [|done]); simpl;
    (eexists; split; [by apply list_lookup_insert_eq|]); simpl;
    (split; [apply lookup_insert_eq|]);
    intros k Hk; by rewrite lookup_insert_ne.
Qed.

(** X4.  A message ['replace'] for an item id that the chat's message
    mapping lacks is ignored: the delivery emits the raw event only and
    changes nothing else. *)
Theorem message_replace_unknown (s : Client) (topic : Topic) (payload : string)
    (d : Data) (threadID : string) (l : loc) (chat : Chat) (mp : MessagePayload) :
  ready s = true ->
  microtasks s = [] ->
  topic_id topic = "146" ->
  JSON_parse_batch payload = Some [ {| data := [d] |} ] ->
  op d = "replace" ->
  matchInboxThreadPath (path d) = None ->
  matchMessagePath (path d) = Some threadID ->
  cache_chats s !! threadID = Some l ->
  heap s !! l = Some chat ->
  JSON_parse_item (value d) = Some mp ->
  chat_messages chat !! item_id mp = None ->
  step (Deliver_realtime topic payload) s =
    (emit (rawRealtime topic payload) s, None).
Proof.
  intros Hr Hq Ht Hp Hop Hi Hm Hc Hh Hv Hnone.
  rewrite (deliver_callback topic payload d threadID l
             (cb_replaceMessage (value d))); try done.
  2:{ intros s0. by apply applyData_replace_message. }
  unfold runChatCb. simpl. rewrite Hh. unfold replaceMessage. rewrite Hv, Hnone.
  by rewrite runMicrotasks_nil.
Qed.

(** The delivery of a message ['replace'] on a cached message, up to the
    comparison of the likes. *)
Lemma message_replace_known (s : Client) (topic : Topic) (payload : string)
    (d : Data) (threadID : string) (l : loc) (chat : Chat) (mp : MessagePayload)
    (oldMessage : Message) :
  ready s = true ->
  microtasks s = [] ->
  topic_id topic = "146" ->
  JSON_parse_batch payload = Some [ {| data := [d] |} ] ->
  op d = "replace" ->
  matchInboxThreadPath (path d) = None ->
  matchMessagePath (path d) = Some threadID ->
  cache_chats s !! threadID = Some l ->
  heap s !! l = Some chat ->
  JSON_parse_item (value d) = Some mp ->
  chat_messages chat !! item_id mp = Some oldMessage ->
  step (Deliver_realtime topic payload) s =
    (runMicrotasks (replaceMessage l chat (value d)
                      (emit (rawRealtime topic payload) s)), None).
Proof.
  intros Hr Hq Ht Hp Hop Hi Hm Hc Hh Hv Hold.
  rewrite (deliver_callback topic payload d threadID l
             (cb_replaceMessage (value d))); try done.
  2:{ intros s0. by apply applyData_replace_message. }
  unfold runChatCb. simpl. by rewrite Hh.
Qed.

(** X5.  A message ['replace'] on a cached message stores the merged
    message; when the merged like list is longer and holds exactly one like
    [a] whose user the prior list lacks, exactly one [likeAdd] with the
    (cached) user of [a] and the merged message is emitted; when it is
    shorter and exactly one prior like [a] has a user missing from the merged
    list, exactly one [likeRemove] with that user and the merged message. *)
Theorem like_delta (s : Client) (topic : Topic) (payload : string)
    (d : Data) (threadID : string) (l : loc) (chat : Chat) (mp : MessagePayload)
    (oldMessage : Message) (a : Like) (u : User) :
  ready s = true ->
  microtasks s = [] ->
  topic_id topic = "146" ->
  JSON_parse_batch payload = Some [ {| data := [d] |} ] ->
  op d = "replace" ->
  matchInboxThreadPath (path d) = None ->
  matchMessagePath (path d) = Some threadID ->
  cache_chats s !! threadID = Some l ->
  heap s !! l = Some chat ->
  JSON_parse_item (value d) = Some mp ->
  chat_messages chat !! item_id mp = Some oldMessage ->
  isID (userID a) = true ->
  cache_users s !! userID a = Some u ->
  let message := Message_patch oldMessage mp in
  let stored :=
    set_heap (<[l := set_messages (<[item_id mp := message]> (chat_messages chat))
                       chat]> (heap s))
      (emit (rawRealtime topic payload) s) in
  (List.length (likes oldMessage) < List.length (likes message) ->
   a ∈ likes message ->
   likes_some (likes oldMessage) (userID a) = false ->
   (forall b, b ∈ likes message ->
              likes_some (likes oldMessage) (userID b) = false -> b = a) ->
   step (Deliver_realtime topic payload) s = (emit (likeAdd u message) stored, None))
  /\ (List.length (likes message) < List.length (likes oldMessage) ->
      a ∈ likes oldMessage ->
      likes_some (likes message) (userID a) = false ->
      (forall b, b ∈ likes oldMessage ->
                 likes_some (likes message) (userID b) = false -> b = a) ->
      step (Deliver_realtime topic payload) s =
        (emit (likeRemove u message) stored, None)).
Proof.
  intros Hr Hq Ht Hp Hop Hi Hm Hc Hh Hv Hold Hid Hu message stored.
  rewrite (message_replace_known s topic payload d threadID l chat mp oldMessage)
    by done.
  unfold replaceMessage. rewrite Hv, Hold. fold message. fold stored.
  assert (Hfetch : forall cb,
            runMicrotasks (fetchUser (userID a) false cb stored) =
            runUserCb cb u stored).
  { intros cb. rewrite (fetchUser_cached (userID a) u) by done.
    rewrite runMicrotasks_enqueue by (simpl; by rewrite Hq).
    simpl. rewrite runMicrotasks_nil; [done|].
    rewrite runUserCb_microtasks. simpl. done. }
  split; intros Hlen Hin Hnew Huniq.
  - rewrite (proj2 (Nat.ltb_ge _ _)) by lia.
    rewrite (proj2 (Nat.ltb_lt _ _)) by lia.
    rewrite (find_unique _ _ a); [|done|by rewrite Hnew|].
    + by rewrite Hfetch.
    + intros b Hb Hfb. apply Huniq; [done|]. by apply negb_true_iff.
  - rewrite (proj2 (Nat.ltb_lt _ _)) by lia.
    rewrite (find_unique _ _ a); [|done|by rewrite Hnew|].
    + by rewrite Hfetch.
    + intros b Hb Hfb. apply Huniq; [done|]. by apply negb_true_iff.
Qed.

Lemma find_all_false {A} (f : A -> bool) (xs : list A) :
  (forall x, x ∈ xs -> f x = false) -> find f xs = None.
Proof.
  induction xs as [|x xs IH]; intros Hf; simpl; [done|].
  rewrite (Hf x) by (apply elem_of_cons; by left).
  apply IH. intros y Hy. apply Hf. apply elem_of_cons. by right.
Qed.

(** X6.  A message ['replace'] that shortens the like list although the
    user of every prior like still has a like in the merged list (a user had
    liked twice) stores the merged message, emits no like event, and rejects
    the promise of the callback with a [TypeError]: the user id is read off
    the like that was not found.  The opposite change, a longer list with no
    new user, stores the merged message and neither emits nor rejects. *)
Theorem like_not_found (s : Client) (topic : Topic) (payload : string)
    (d : Data) (threadID : string) (l : loc) (chat : Chat) (mp : MessagePayload)
    (oldMessage : Message) :
  ready s = true ->
  microtasks s = [] ->
  topic_id topic = "146" ->
  JSON_parse_batch payload = Some [ {| data := [d] |} ] ->
  op d = "replace" ->
  matchInboxThreadPath (path d) = None ->
  matchMessagePath (path d) = Some threadID ->
  cache_chats s !! threadID = Some l ->
  heap s !! l = Some chat ->
  JSON_parse_item (value d) = Some mp ->
  chat_messages chat !! item_id mp = Some oldMessage ->
  let message := Message_patch oldMessage mp in
  let stored :=
    set_heap (<[l := set_messages (<[item_id mp := message]> (chat_messages chat))
                       chat]> (heap s))
      (emit (rawRealtime topic payload) s) in
  (List.length (likes message) < List.length (likes oldMessage) ->
   (forall b, b ∈ likes oldMessage -> likes_some (likes message) (userID b) = true) ->
   step (Deliver_realtime topic payload) s = (reject TypeError stored, None))
  /\ (List.length (likes oldMessage) < List.length (likes message) ->
      (forall b, b ∈ likes message -> likes_some (likes oldMessage) (userID b) = true) ->
      step (Deliver_realtime topic payload) s = (stored, None)).
Proof.
  intros Hr Hq Ht Hp Hop Hi Hm Hc Hh Hv Hold message stored.
  rewrite (message_replace_known s topic payload d threadID l chat mp oldMessage)
    by done.
  unfold replaceMessage. rewrite Hv, Hold. fold message. fold stored.
  split; intros Hlen Hall.
  - rewrite (proj2 (Nat.ltb_lt _ _)) by lia.
    rewrite find_all_false.
    + by rewrite runMicrotasks_nil.
    + intros b Hb. by rewrite (Hall b Hb).
  - rewrite (proj2 (Nat.ltb_ge _ _)) by lia.
    rewrite (proj2 (Nat.ltb_lt _ _)) by lia.
    rewrite find_all_false.
    + by rewrite runMicrotasks_nil.
    + intros b Hb. by rewrite (Hall b Hb).
Qed.

End MessageOperations.

Section ThreadEvents.
Context `{U : Util}.

Lemma filter_call_nameDiff (l : loc) (c c' : Chat) :
  filter (fun e => call_event e = true) (nameDiff l c c') = [].
Proof. unfold nameDiff. by case_match. Qed.

Lemma filter_call_usersDiff (l : loc) (c c' : Chat) :
  filter (fun e => call_event e = true) (usersDiff l c c') = [].
Proof. unfold usersDiff. by repeat case_match. Qed.

Lemma filter_membership_usersDiff (l : loc) (c c' : Chat) :
  filter (fun e => membership_event e = true) (usersDiff l c c') = usersDiff l c c'.
Proof. unfold usersDiff. by repeat case_match. Qed.

Lemma replaceThread_events (d : Data) (s : Client) (threadID : string) (l : loc)
    (oldChat : Chat) (p : ThreadPayload) :
  op d = "replace" ->
  matchInboxThreadPath (path d) = Some threadID ->
  cache_chats s !! threadID = Some l ->
  heap s !! l = Some oldChat ->
  JSON_parse_thread (value d) = Some p ->
  emitted_since s (fst (applyData d s)) =
    nameDiff l oldChat (Chat_patch oldChat p)
    ++ usersDiff l oldChat (Chat_patch oldChat p)
    ++ callDiff l oldChat (Chat_patch oldChat p).
Proof.
  intros Hop Hm Hc Hh Hp.
  rewrite (applyData_replaceThread d threadID) by done.
  rewrite (replaceThread_cached s threadID (value d) l oldChat p) by done.
  cbn [fst].
  erewrite emitted_since_app; [done|].
  exact (emitted_emit_all _ (set_heap (<[l := Chat_patch oldChat p]> (heap s)) s)).
Qed.

(** X7.  A thread ['replace'] on a cached chat emits exactly one call event,
    [callStart] with the chat, when the merge turns the calling flag on,
    exactly one, [callEnd], when it turns it off, and no call event when the
    flag is left as it was. *)
Theorem call_transition (d : Data) (s : Client) (threadID : string) (l : loc)
    (oldChat : Chat) (p : ThreadPayload) :
  op d = "replace" ->
  matchInboxThreadPath (path d) = Some threadID ->
  cache_chats s !! threadID = Some l ->
  heap s !! l = Some oldChat ->
  JSON_parse_thread (value d) = Some p ->
  let calls := filter (fun e => call_event e = true)
                 (emitted_since s (fst (applyData d s))) in
  (calling oldChat = false -> calling (Chat_patch oldChat p) = true ->
   calls = [callStart l])
  /\ (calling oldChat = true -> calling (Chat_patch oldChat p) = false ->
      calls = [callEnd l])
  /\ (calling (Chat_patch oldChat p) = calling oldChat -> calls = []).
Proof.
  intros Hop Hm Hc Hh Hp calls. subst calls.
  rewrite (replaceThread_events d s threadID l oldChat p) by done.
  rewrite !filter_app, filter_call_nameDiff, filter_call_usersDiff.
  cbn [app]. unfold callDiff.
  repeat split.
  - by intros -> ->.
  - by intros -> ->.
  - intros ->. by destruct (calling oldChat).
Qed.

(** X8.  Whatever the merge changes, a thread ['replace'] on a cached chat
    emits at most three events, of which at most one is a membership event,
    also when several members joined or left at once; and a merge that
    leaves the number of members as it was emits no membership event, even
    if the members differ. *)
Theorem replace_event_bounds (d : Data) (s : Client) (threadID : string) (l : loc)
    (oldChat : Chat) (p : ThreadPayload) :
  op d = "replace" ->
  matchInboxThreadPath (path d) = Some threadID ->
  cache_chats s !! threadID = Some l ->
  heap s !! l = Some oldChat ->
  JSON_parse_thread (value d) = Some p ->
  let evs := emitted_since s (fst (applyData d s)) in
  List.length evs <= 3
  /\ List.length (filter (fun e => membership_event e = true) evs) <= 1
  /\ (List.length (chat_users (Chat_patch oldChat p)) = List.length (chat_users oldChat) ->
      filter (fun e => membership_event e = true) evs = []).
Proof.
  intros Hop Hm Hc Hh Hp evs. subst evs.
  rewrite (replaceThread_events d s threadID l oldChat p) by done.
  assert (Hn : List.length (nameDiff l oldChat (Chat_patch oldChat p)) <= 1).
  { unfold nameDiff. case_match; simpl; lia. }
  assert (Hu : List.length (usersDiff l oldChat (Chat_patch oldChat p)) <= 1).
  { unfold usersDiff. repeat case_match; simpl; lia. }
  assert (Hcl : List.length (callDiff l oldChat (Chat_patch oldChat p)) <= 1).
  { unfold callDiff. repeat case_match; simpl; lia. }
  assert (Hfn : filter (fun e => membership_event e = true)
                  (nameDiff l oldChat (Chat_patch oldChat p)) = []).
  { unfold nameDiff. by case_match. }
  assert (Hfc : filter (fun e => membership_event e = true)
                  (callDiff l oldChat (Chat_patch oldChat p)) = []).
  { unfold callDiff. by repeat case_match. }
  rewrite !filter_app, Hfn, Hfc, filter_membership_usersDiff, app_nil_r.
  cbn [app]. rewrite !length_app.
  split; [lia|]. split; [done|].
  intros Hlen. unfold usersDiff. rewrite Hlen, Nat.ltb_irrefl. done.
Qed.

End ThreadEvents.

Section AdminOperations.
Context `{U : Util}.

Lemma applyData_add_admin (d : Data) (threadID userID : string) (s : Client) :
  op d = "add" ->
  matchAdminPath (path d) = Some (threadID, userID) ->
  applyData d s = (fetchChat threadID false (cb_adminAdd userID) s, None).
Proof. intros Hop Ha. unfold applyData. by rewrite Hop, Ha. Qed.

(** The delivery of one admin operation on a cached chat, for a cached
    user. *)
Lemma admin_delivery (s : Client) (topic : Topic) (payload : string) (d : Data)
    (threadID userID : string) (l : loc) (chat : Chat) (user : User) :
  ready s = true ->
  microtasks s = [] ->
  topic_id topic = "146" ->
  JSON_parse_batch payload = Some [ {| data := [d] |} ] ->
  matchAdminPath (path d) = Some (threadID, userID) ->
  cache_chats s !! threadID = Some l ->
  heap s !! l = Some chat ->
  isID userID = true ->
  cache_users s !! userID = Some user ->
  let appended :=
    set_heap (<[l := set_adminUserIDs (adminUserIDs chat ++ [userID]) chat]> (heap s))
      (emit (rawRealtime topic payload) s) in
  (op d = "add" ->
     step (Deliver_realtime topic payload) s =
       (emit (chatAdminAdd l user) appended, None))
  /\ (op d = "remove" ->
        step (Deliver_realtime topic payload) s =
          (emit (chatAdminRemove l user) appended, None)).
Proof.
  intros Hr Hq Ht Hp Ha Hc Hh Hid Hu appended. subst appended.
  split; intros Hop.
  - rewrite (deliver_callback topic payload d threadID l (cb_adminAdd userID));
      try done.
    2:{ intros s0. by apply applyData_add_admin. }
    unfold runChatCb. simpl. rewrite Hh.
    rewrite (fetchUser_cached userID user) by done.
    rewrite runMicrotasks_enqueue by (simpl; by rewrite Hq).
    simpl. by rewrite runMicrotasks_nil.
  - rewrite (deliver_callback topic payload d threadID l (cb_adminRemove userID));
      try done.
    2:{ intros s0. by apply applyData_remove_admin. }
    unfold runChatCb. simpl. rewrite Hh.
    rewrite (fetchUser_cached userID user) by done.
    rewrite runMicrotasks_enqueue by (simpl; by rewrite Hq).
    simpl. by rewrite runMicrotasks_nil.
Qed.

(** X9.  An admin ['add'] for a user followed by an admin ['remove'] for
    the same user of the same cached chat emits [chatAdminAdd] then
    [chatAdminRemove], each after its raw event, and leaves the user id
    twice at the end of the chat's admin-id list: the remove appends as the
    add does, so the list never gets shorter. *)
Theorem admin_add_then_remove (s : Client) (topic : Topic)
    (payloadAdd payloadRemove : string) (dAdd dRemove : Data)
    (threadID userID : string) (l : loc) (chat : Chat) (user : User) :
  ready s = true ->
  microtasks s = [] ->
  topic_id topic = "146" ->
  JSON_parse_batch payloadAdd = Some [ {| data := [dAdd] |} ] ->
  JSON_parse_batch payloadRemove = Some [ {| data := [dRemove] |} ] ->
  op dAdd = "add" ->
  op dRemove = "remove" ->
  matchAdminPath (path dAdd) = Some (threadID, userID) ->
  matchAdminPath (path dRemove) = Some (threadID, userID) ->
  cache_chats s !! threadID = Some l ->
  heap s !! l = Some chat ->
  isID userID = true ->
  cache_users s !! userID = Some user ->
  let s' := run [Deliver_realtime topic payloadAdd;
                 Deliver_realtime topic payloadRemove] s in
  emitted_since s s' =
    [rawRealtime topic payloadAdd; chatAdminAdd l user;
     rawRealtime topic payloadRemove; chatAdminRemove l user]
  /\ exists chat', heap s' !! l = Some chat'
       /\ adminUserIDs chat' = adminUserIDs chat ++ [userID; userID].
Proof.
  intros Hr Hq Ht Hpa Hpr Hoa Hor Haa Har Hc Hh Hid Hu s'. subst s'.
  assert (Hl : l < List.length (heap s)) by (by eapply lookup_lt_Some).
  unfold run. cbn [foldl].
  destruct (admin_delivery s topic payloadAdd dAdd threadID userID l chat user)
    as [Hadd _]; try done.
  rewrite (Hadd Hoa). cbn [fst].
  match goal with
  | |- context [step _ ?s1] =>
      destruct (admin_delivery s1 topic payloadRemove dRemove threadID userID l
                  (set_adminUserIDs (adminUserIDs chat ++ [userID]) chat) user)
        as [_ Hrem]; try done
  end.
  { simpl. by apply list_lookup_insert_eq. }
  rewrite (Hrem Hor). cbn [fst]. split.
  - apply emitted_since_app. simpl. by rewrite <- !app_assoc.
  - eexists. split.
    + simpl. apply list_lookup_insert_eq. by rewrite length_insert.
    + simpl. by rewrite <- app_assoc.
Qed.

End AdminOperations.

Section PushCategories.
Context `{U : Util}.

Lemma case_of_eq (d : Push) (c : string) :
  pushCategory d = Some c -> case_of d c = true.
Proof. intros H. unfold case_of. rewrite H. apply String.eqb_refl. Qed.

Lemma case_of_ne (d : Push) (c c' : string) :
  pushCategory d = Some c -> c <> c' -> case_of d c' = false.
Proof. intros H Hne. unfold case_of. rewrite H. by apply String.eqb_neq. Qed.


(** The answer to the only request in flight. *)
Lemma net_reply_only (a : Awaiter) (r : Response) (s : Client) :
  inflight s = [] ->
  net_reply 0 r (request a s) = resume a r s.
Proof.
  intros Hi. unfold net_reply. simpl. rewrite Hi. simpl.
  f_equal. destruct s; simpl in *; by subst.
Qed.

(** What the loop of the pending refresh leaves in the two caches. *)
Lemma refresh_caches (threads : list ThreadPayload) (s : Client) (k : string) :
  let s1 := foldl (fun acc thread => refreshThread thread acc) s threads in
  (k ∈ map thread_id threads ->
     exists l : loc, cache_pendingChats s1 !! k = Some l
            /\ cache_chats s1 !! k = Some l
            /\ List.length (heap s) <= l < List.length (heap s1))
  /\ (k ∉ map thread_id threads ->
        cache_pendingChats s1 !! k = cache_pendingChats s !! k
        /\ cache_chats s1 !! k = cache_chats s !! k)
  /\ List.length (heap s) <= List.length (heap s1).
Proof.
  revert s. induction threads as [|t ts IH]; intros s; cbn zeta.
  - simpl. split; [intros H; by apply elem_of_nil in H|]. split; [done|lia].
  - change (foldl (fun acc thread => refreshThread thread acc) s (t :: ts))
      with (foldl (fun acc thread => refreshThread thread acc) (refreshThread t s) ts).
    cbn [map].
    destruct (IH (refreshThread t s)) as (Hin & Hout & Hlen). cbn zeta in *.
    assert (Hgrow : List.length (heap (refreshThread t s)) = S (List.length (heap s))).
    { unfold refreshThread. simpl. rewrite length_app. simpl. lia. }
    split; [|split; [|lia]].
    + intros Hk. destruct (decide (k ∈ map thread_id ts)) as [Hts|Hts].
      * destruct (Hin Hts) as (l & Hp & Hc & Hl). exists l. repeat split; try done; lia.
      * destruct (Hout Hts) as [Hp Hc].
        apply elem_of_cons in Hk as [->|Hk]; [|done].
        exists (List.length (heap s)).
        split; [etrans; [exact Hp|]|split; [etrans; [exact Hc|]|lia]];
          unfold refreshThread; simpl; by rewrite lookup_insert_eq.
    + intros Hk. apply not_elem_of_cons in Hk as [Hne Hts].
      destruct (Hout Hts) as [Hp Hc].
      split; [etrans; [exact Hp|]|etrans; [exact Hc|]];
        unfold refreshThread; simpl; by rewrite lookup_insert_ne.
Qed.

Lemma refresh_frame (threads : list ThreadPayload) (s : Client) :
  let s1 := foldl (fun acc thread => refreshThread thread acc) s threads in
  emitted s1 = emitted s /\ microtasks s1 = microtasks s.
Proof.
  revert s. induction threads as [|t ts IH]; intros s; cbn zeta; [done|].
  change (foldl (fun acc thread => refreshThread thread acc) s (t :: ts))
    with (foldl (fun acc thread => refreshThread thread acc) (refreshThread t s) ts).
  destruct (IH (refreshThread t s)) as [-> ->]. done.
Qed.

(** X11.  A [direct_v2_pending] push with a truthy action-parameter id,
    processed while ready: when the id is already in the pending-chats cache
    nothing is requested and only the raw event is emitted; otherwise the
    pending threads are requested, and once they are answered every thread
    of the answer is cached, in both caches, as one new chat object (also a
    thread that was cached before), and exactly one [pendingRequest] with
    the new chat of that id is emitted when the answer holds the id, none
    when it does not. *)
Theorem pending_refresh (s : Client) (d : Push) (id : string)
    (threads : list ThreadPayload) :
  ready s = true ->
  microtasks s = [] ->
  inflight s = [] ->
  pushCategory d = Some "direct_v2_pending" ->
  actionParams_id d = Some id ->
  id <> "" ->
  (is_Some (cache_pendingChats s !! id) ->
     step (Deliver_fbns d) s = (emit (rawFbns d) s, None))
  /\ (cache_pendingChats s !! id = None ->
      let s' := run [Deliver_fbns d; Net_reply 0 (RespThreads threads)] s in
      step (Deliver_fbns d) s = (request (await_pending id) (emit (rawFbns d) s), None)
      /\ (forall k, k ∈ map thread_id threads ->
            exists l : loc, cache_pendingChats s' !! k = Some l
                   /\ cache_chats s' !! k = Some l
                   /\ List.length (heap s) <= l < List.length (heap s'))
      /\ (id ∈ map thread_id threads ->
            exists l : loc, cache_pendingChats s' !! id = Some l
                   /\ emitted_since s s' = [rawFbns d; pendingRequest l])
      /\ (id ∉ map thread_id threads -> emitted_since s s' = [rawFbns d])).
Proof.
  intros Hr Hq Hi Hcat Hid Hne.
  assert (Hhandle : handleFbnsReceive d s =
            if bool_decide (is_Some (cache_pendingChats s !! id))
            then emit (rawFbns d) s
            else request (await_pending id) (emit (rawFbns d) s)).
  { unfold handleFbnsReceive. rewrite Hr. simpl.
    rewrite (case_of_ne d _ "new_follower" Hcat) by done.
    rewrite (case_of_ne d _ "private_user_follow_request" Hcat) by done.
    rewrite (case_of_eq d _ Hcat), Hid. simpl.
    rewrite (proj2 (String.eqb_neq id "") Hne). simpl.
    by destruct (bool_decide (is_Some (cache_pendingChats s !! id))). }
  split.
  - intros Hsome. unfold step, act. rewrite Hhandle.
    rewrite bool_decide_eq_true_2 by done. by rewrite runMicrotasks_nil.
  - intros Hnone. cbn zeta.
    assert (Hfirst : step (Deliver_fbns d) s =
              (request (await_pending id) (emit (rawFbns d) s), None)).
    { unfold step, act. rewrite Hhandle.
      rewrite bool_decide_eq_false_2 by (rewrite Hnone; by intros [? ?]).
      by rewrite runMicrotasks_nil. }
    split; [done|]. unfold run. cbn [foldl]. rewrite Hfirst. cbn [fst].
    unfold step, act. rewrite net_reply_only by done.
    set (s0 := emit (rawFbns d) s).
    pose proof (refresh_frame threads s0) as [Hem Hmt]. cbn zeta in Hem, Hmt.
    assert (Hcaches := fun k => refresh_caches threads s0 k). cbn zeta in Hcaches.
    change (resume (await_pending id) (RespThreads threads) s0) with
      (match cache_pendingChats
               (foldl (fun acc thread => refreshThread thread acc) s0 threads) !! id with
       | Some pendingChat =>
           emit (pendingRequest pendingChat)
             (foldl (fun acc thread => refreshThread thread acc) s0 threads)
       | None => foldl (fun acc thread => refreshThread thread acc) s0 threads
       end).
    set (s1 := foldl (fun acc thread => refreshThread thread acc) s0 threads) in *.
    assert (Hs1 : microtasks s1 = []) by (rewrite Hmt; simpl; done).
    assert (Hshape : forall s2, same_shape s1 s2 ->
              forall k, k ∈ map thread_id threads ->
                exists l : loc, cache_pendingChats s2 !! k = Some l
                       /\ cache_chats s2 !! k = Some l
                       /\ List.length (heap s) <= l < List.length (heap s2)).
    { intros s2 [[Hc Hp] Hl] k Hk.
      destruct (Hcaches k) as (Hin & _ & _). destruct (Hin Hk) as (l & ? & ? & ?).
      exists l. rewrite Hc, Hp, Hl. done. }
    destruct (decide (id ∈ map thread_id threads)) as [Hin|Hout].
    + destruct (Hcaches id) as (Hk & _ & _). destruct (Hk Hin) as (l & Hp & Hc & Hl).
      rewrite Hp. rewrite runMicrotasks_nil by (simpl; done). cbn [fst].
      split; [|split; [|done]].
      * apply Hshape. done.
      * intros _. exists l. split; [done|].
        apply emitted_since_app. simpl. rewrite Hem. simpl.
        by rewrite <- app_assoc.
    + destruct (Hcaches id) as (_ & Hk & _). destruct (Hk Hout) as [Hp _].
      rewrite Hp. simpl. rewrite Hnone.
      rewrite runMicrotasks_nil by done. cbn [fst].
      split; [|split; [done|]].
      * apply Hshape. done.
      * intros _. apply emitted_since_app. rewrite Hem. done.
Qed.

End PushCategories.

Section Fetching.
Context `{U : Util}.

Lemma step_call_nil (a : Action) (s s' : Client) :
  act a s = (s', None) -> microtasks s' = [] -> step a s = (s', None).
Proof. intros Ha Hq. unfold step. rewrite Ha. by rewrite runMicrotasks_nil. Qed.


(** X13.  [fetchChat] on an id that the chat cache lacks requests the
    thread; when the request is answered, the chat built from the answer is
    cached under the requested id, nothing is emitted, and a second
    [fetchChat] of that id is served from the cache without a request; when
    the request is rejected nothing is cached and the promise is rejected. *)
Theorem fetchChat_miss_then_cached (s : Client) (chatID : string)
    (p : ThreadPayload) :
  cache_chats s !! chatID = None ->
  inflight s = [] ->
  microtasks s = [] ->
  let s' := run [Call_fetchChat chatID false; Net_reply 0 (RespThread p)] s in
  step (Call_fetchChat chatID false) s =
    (request (await_chatMiss chatID cb_caller) s, None)
  /\ s' = set_chats (<[chatID := List.length (heap s)]> (cache_chats s))
            (set_heap (heap s ++ [Chat_new chatID p]) s)
  /\ (exists l : loc, cache_chats s' !! chatID = Some l
                   /\ heap s' !! l = Some (Chat_new chatID p))
  /\ step (Call_fetchChat chatID false) s' = (s', None)
  /\ run [Call_fetchChat chatID false; Net_reply 0 RespReject] s =
       reject RequestError s.
Proof.
  intros Hc Hi Hq. cbn zeta.
  assert (Hfirst : step (Call_fetchChat chatID false) s =
            (request (await_chatMiss chatID cb_caller) s, None)).
  { apply step_call_nil; [|done]. simpl. unfold fetchChat. by rewrite Hc. }
  assert (Hrun : run [Call_fetchChat chatID false; Net_reply 0 (RespThread p)] s =
            set_chats (<[chatID := List.length (heap s)]> (cache_chats s))
              (set_heap (heap s ++ [Chat_new chatID p]) s)).
  { unfold run. cbn [foldl]. rewrite Hfirst. cbn [fst].
    rewrite net_reply_chatMiss by done. cbn [fst].
    rewrite runChatCb_caller. by rewrite runMicrotasks_nil. }
  split; [done|]. rewrite Hrun. split; [done|]. split; [|split].
  - exists (List.length (heap s)). split; simpl.
    + apply lookup_insert_eq.
    + rewrite lookup_app_r by lia. by rewrite Nat.sub_diag.
  - unfold step, act. unfold fetchChat. simpl. rewrite lookup_insert_eq.
    rewrite runMicrotasks_enqueue by done.
    simpl. rewrite runChatCb_caller. by rewrite runMicrotasks_nil.
  - unfold run. cbn [foldl]. rewrite Hfirst. cbn [fst].
    unfold step, act. rewrite net_reply_only by done. simpl.
    by rewrite runMicrotasks_nil.
Qed.

(** X14.  [fetchChat] with [force] on a cached chat requests the thread
    and, once answered, merges the answer into the cached chat object in
    place: the object keeps its place in the heap, so the chats cache, the
    pending-chats cache and every other holder see the merged chat; no
    object is created and nothing is emitted. *)
Theorem fetchChat_force_in_place (s : Client) (chatID : string) (l : loc)
    (chat : Chat) (p : ThreadPayload) :
  cache_chats s !! chatID = Some l ->
  heap s !! l = Some chat ->
  inflight s = [] ->
  microtasks s = [] ->
  run [Call_fetchChat chatID true; Net_reply 0 (RespThread p)] s =
    set_heap (<[l := Chat_patch chat p]> (heap s)) s.
Proof.
  intros Hc Hh Hi Hq. unfold run. cbn [foldl].
  rewrite (step_call_nil _ s (request (await_chatForce chatID cb_caller) s));
    [|simpl; unfold fetchChat; by rewrite Hc|done].
  cbn [fst]. unfold step, act. rewrite net_reply_only by done.
  cbn [resume]. rewrite Hc, Hh.
  rewrite runMicrotasks_enqueue by done.
  simpl. rewrite runChatCb_caller. by rewrite runMicrotasks_nil.
Qed.

(** X15.  [fetchUser] of an id that the user cache lacks requests the user
    and, once answered, caches the user built from the answer under the
    requested id, after which a second [fetchUser] of that id issues no
    request and changes nothing.  [fetchUser] of a name (a query that is no
    id) first requests the id; when the user of the answered id is cached, no
    user request follows and the client is left as it was. *)
Theorem fetchUser_miss_then_cached (s : Client) (query : string) :
  inflight s = [] ->
  microtasks s = [] ->
  (forall p,
     isID query = true ->
     cache_users s !! query = None ->
     let s' := run [Call_fetchUser query false; Net_reply 0 (RespUser p)] s in
     s' = set_users (<[query := User_new p]> (cache_users s)) s
     /\ step (Call_fetchUser query false) s' = (s', None))
  /\ (forall id user,
        isID query = false ->
        cache_users s !! id = Some user ->
        step (Call_fetchUser query false) s =
          (request (await_userId false ucb_caller) s, None)
        /\ run [Call_fetchUser query false; Net_reply 0 (RespId id)] s = s).
Proof.
  intros Hi Hq. split.
  - intros p Hid Hu. cbn zeta.
    assert (Hrun : run [Call_fetchUser query false; Net_reply 0 (RespUser p)] s =
              set_users (<[query := User_new p]> (cache_users s)) s).
    { unfold run. cbn [foldl].
      rewrite (step_call_nil _ s (request (await_userMiss query ucb_caller) s));
        [|simpl; by rewrite (fetchUser_missing query)|done].
      cbn [fst]. rewrite net_reply_userMiss by done. cbn [fst runUserCb].
      by rewrite runMicrotasks_nil. }
    rewrite Hrun. split; [done|].
    unfold step, act. rewrite (fetchUser_cached query (User_new p));
      [|done|simpl; apply lookup_insert_eq].
    rewrite runMicrotasks_enqueue by done.
    simpl. by rewrite runMicrotasks_nil.
  - intros id user Hid Hu.
    assert (Hfirst : step (Call_fetchUser query false) s =
              (request (await_userId false ucb_caller) s, None)).
    { apply step_call_nil; [|done]. simpl. unfold fetchUser. by rewrite Hid. }
    split; [done|]. unfold run. cbn [foldl]. rewrite Hfirst. cbn [fst].
    unfold step, act. rewrite net_reply_only by done.
    cbn [resume]. unfold fetchUser_id. rewrite Hu.
    rewrite runMicrotasks_enqueue by done.
    simpl. by rewrite runMicrotasks_nil.
Qed.

(** X16.  [createChat], once the thread creation is answered, caches a new
    chat object under the thread id of the answer and emits nothing.  It
    writes the chats cache only: when the id was cached, and was pending, the
    chats cache now holds the new object while the pending-chats cache still
    holds the previous one. *)
Theorem createChat_replaces (s : Client) (p : ThreadPayload) :
  inflight s = [] ->
  microtasks s = [] ->
  let s' := run [Call_createChat; Net_reply 0 (RespThread p)] s in
  s' = set_chats (<[thread_id p := List.length (heap s)]> (cache_chats s))
         (set_heap (heap s ++ [Chat_new (thread_id p) p]) s)
  /\ (forall l : loc,
        cache_pendingChats s !! thread_id p = Some l ->
        l < List.length (heap s) ->
        cache_pendingChats s' !! thread_id p = Some l
        /\ cache_chats s' !! thread_id p <> Some l).
Proof.
  intros Hi Hq. cbn zeta.
  assert (Hrun : run [Call_createChat; Net_reply 0 (RespThread p)] s =
            set_chats (<[thread_id p := List.length (heap s)]> (cache_chats s))
              (set_heap (heap s ++ [Chat_new (thread_id p) p]) s)).
  { unfold run. cbn [foldl].
    rewrite (step_call_nil _ s (request await_createChat s)) by done.
    cbn [fst]. unfold step, act. rewrite net_reply_only by done.
    simpl. by rewrite runMicrotasks_nil. }
  rewrite Hrun. split; [done|].
  intros l Hp Hl. simpl. split; [done|].
  rewrite lookup_insert_eq. intros [= Heq]. lia.
Qed.

End Fetching.

Section ConcurrentFetch.
Context `{U : Util}.

(** The answer to the first request in flight, a thread requested for a
    message ['add']: the chat is built, cached, and receives the message. *)
Lemma add_after_miss (s : Client) (threadID v : string) (rest : list Awaiter)
    (p : ThreadPayload) (mp : MessagePayload) :
  inflight s = await_chatMiss threadID (cb_addMessage threadID v) :: rest ->
  microtasks s = [] ->
  JSON_parse_item v = Some mp ->
  discarded_item mp = false ->
  let message := Message_new threadID mp in
  let chat := Chat_new threadID p in
  let stored :=
    set_heap (heap s ++ [set_messages (<[item_id mp := message]> (chat_messages chat))
                           chat])
      (set_chats (<[threadID := List.length (heap s)]> (cache_chats s))
         (set_inflight rest s)) in
  step (Net_reply 0 (RespThread p)) s =
    (if isMessageValid message then emit (messageCreate message) stored else stored,
     None).
Proof.
  intros Hi Hq Hv Hdis message chat stored.
  unfold step, act, net_reply. rewrite Hi. cbn [lookup list_lookup delete list_delete].
  cbn [resume alloc]. cbn beta iota zeta.
  rewrite runMicrotasks_enqueue by (simpl; done).
  cbn [runTask]. unfold runChatCb. cbn [heap set_chats set_heap set_inflight].
  rewrite lookup_app_r by lia. rewrite Nat.sub_diag. cbn [lookup list_lookup].
  unfold addMessage. rewrite Hv. unfold discarded_item in Hdis. rewrite Hdis.
  cbn [heap set_chats set_heap set_inflight].
  rewrite insert_app_r_alt by lia. rewrite Nat.sub_diag. cbn [insert list_insert].
  fold chat. fold message.
  destruct (isMessageValid message);
    (rewrite runMicrotasks_nil; [reflexivity|exact Hq]).
Qed.

(** X17.  Two message ['add'] operations of one batch on a thread that the
    chat cache lacks request the thread twice; each answer builds its own
    chat object and caches it under the thread id, so after both answers the
    cache names the second object, which holds the second message only, and
    the first message sits in the first object, which the cache no longer
    names.  A [messageCreate] was emitted for each valid message. *)
Theorem concurrent_miss_splits_chat (s : Client) (topic : Topic) (payload : string)
    (d1 d2 : Data) (threadID : string) (mp1 mp2 : MessagePayload)
    (p1 p2 : ThreadPayload) :
  ready s = true ->
  microtasks s = [] ->
  inflight s = [] ->
  topic_id topic = "146" ->
  JSON_parse_batch payload = Some [ {| data := [d1; d2] |} ] ->
  op d1 = "add" -> op d2 = "add" ->
  matchAdminPath (path d1) = None -> matchAdminPath (path d2) = None ->
  matchMessagePath (path d1) = Some threadID ->
  matchMessagePath (path d2) = Some threadID ->
  cache_chats s !! threadID = None ->
  JSON_parse_item (value d1) = Some mp1 ->
  JSON_parse_item (value d2) = Some mp2 ->
  discarded_item mp1 = false -> discarded_item mp2 = false ->
  let m1 := Message_new threadID mp1 in
  let m2 := Message_new threadID mp2 in
  let first := List.length (heap s) in
  let s' := run [Deliver_realtime topic payload;
                 Net_reply 0 (RespThread p1); Net_reply 0 (RespThread p2)] s in
  cache_chats s' !! threadID = Some (S first)
  /\ heap s' !! first =
       Some (set_messages (<[item_id mp1 := m1]> (chat_messages (Chat_new threadID p1)))
               (Chat_new threadID p1))
  /\ heap s' !! S first =
       Some (set_messages (<[item_id mp2 := m2]> (chat_messages (Chat_new threadID p2)))
               (Chat_new threadID p2))
  /\ emitted_since s s' =
       rawRealtime topic payload
       :: (if isMessageValid m1 then [messageCreate m1] else [])
       ++ (if isMessageValid m2 then [messageCreate m2] else []).
Proof.
  intros Hr Hq Hi Ht Hp Ho1 Ho2 Ha1 Ha2 Hm1 Hm2 Hc Hv1 Hv2 Hd1 Hd2 m1 m2 first s'.
  subst s'. unfold run. cbn [foldl].
  assert (Hfirst : step (Deliver_realtime topic payload) s =
            (request (await_chatMiss threadID (cb_addMessage threadID (value d2)))
               (request (await_chatMiss threadID (cb_addMessage threadID (value d1)))
                  (emit (rawRealtime topic payload) s)), None)).
  { unfold step, act.
    rewrite (handleRealtimeReceive_ready topic payload _ s) by done.
    cbn [forEach_rawMessages forEach_data data].
    rewrite (applyData_add_message d1 threadID) by done. cbn beta iota.
    rewrite (applyData_add_message d2 threadID) by done. cbn beta iota.
    unfold fetchChat. simpl. rewrite Hc.
    change (cache_chats (request (await_chatMiss threadID
                                    (cb_addMessage threadID (value d1)))
                           (emit (rawRealtime topic payload) s)))
      with (cache_chats s).
    rewrite Hc. by rewrite runMicrotasks_nil. }
  rewrite Hfirst. cbn [fst].
  rewrite (add_after_miss _ threadID (value d1)
             [await_chatMiss threadID (cb_addMessage threadID (value d2))] p1 mp1);
    [|simpl; by rewrite Hi|done|done|done].
  cbn [fst]. fold m1.
  match goal with
  | |- context [step _ ?s2] =>
      rewrite (add_after_miss s2 threadID (value d2) [] p2 mp2);
        [|by destruct (isMessageValid m1)|by destruct (isMessageValid m1)|done|done]
  end.
  cbn [fst]. fold m2.
  assert (Hlen : forall c : Chat, List.length (heap s ++ [c]) = S first).
  { intros c. rewrite length_app. simpl. unfold first. lia. }
  destruct (isMessageValid m1), (isMessageValid m2); simpl;
    rewrite ?Hlen, ?lookup_insert_eq;
    (split; [done|]);
    (split; [rewrite lookup_app_l by (rewrite Hlen; lia);
             rewrite lookup_app_r by (unfold first; lia);
             by rewrite Nat.sub_diag|]);
    (split; [rewrite lookup_app_r by (rewrite Hlen; lia);
             by rewrite Hlen, Nat.sub_diag|]);
    apply emitted_since_app; simpl; by rewrite <- ?app_assoc.
Qed.

End ConcurrentFetch.

Section ReplayAbort.
Context `{U : Util}.

(** The replay up to an entry whose payload is not JSON: the entries before
    it are handled, it and they have lost their tag, and the entries after
    it are left in the buffer as they were pushed. *)
Lemma replay_until_throw (es1 es2 : list Inbound) (topic : Topic) (payload : string)
    (pre : list (list JsVal)) (s : Client) :
  ready s = true ->
  topic_id topic = "146" ->
  JSON_parse_batch payload = None ->
  Forall (fun e => throws e = false) es1 ->
  eventsToReplay s = pre ++ map entry (es1 ++ Realtime topic payload :: es2) ->
  replay (List.length pre) (map entry (es1 ++ Realtime topic payload :: es2)) s =
    (emit (rawRealtime topic payload)
       (set_eventsToReplay
          (pre ++ map (fun e => tail (entry e)) (es1 ++ [Realtime topic payload])
               ++ map entry es2)
          (handle_all es1 s)), Some SyntaxError).
Proof.
  revert pre s. induction es1 as [|e es1 IH]; intros pre s Hr Ht Hp Hes Hbuf.
  - cbn [app map replay]. rewrite Hbuf. cbn [app map].
    rewrite insert_app_r_alt by lia. rewrite Nat.sub_diag. cbn [insert list_insert].
    cbn [entry replayEvent tail]. cbn.
    unfold handleRealtimeReceive. cbn. rewrite Hr, Ht, Hp. cbn. done.
  - apply Forall_cons in Hes as [He Hes].
    cbn [app map replay]. rewrite Hbuf. cbn [app map].
    rewrite insert_app_r_alt by lia. rewrite Nat.sub_diag. cbn [insert list_insert].
    rewrite replayEvent_entry, handle_frame by done.
    rewrite (handle_no_throw e s) by done.
    specialize (IH (pre ++ [tail (entry e)])
                  (set_eventsToReplay
                     (pre ++ tail (entry e)
                          :: map entry (es1 ++ Realtime topic payload :: es2))
                     (fst (handle e s)))).
    rewrite length_app in IH. cbn [List.length] in IH.
    replace (List.length pre + 1) with (S (List.length pre)) in IH by lia.
    rewrite IH; try done.
    + rewrite handle_all_frame by (by apply handle_ready).
      change (handle_all (e :: es1) s) with (handle_all es1 (fst (handle e s))).
      rewrite set_eventsToReplay_twice. cbn [map app].
      by rewrite <- app_assoc.
    + simpl. by apply handle_ready.
    + simpl. by rewrite <- app_assoc.
Qed.

(** X18.  When a buffered realtime delivery on topic 146 has a payload that
    is not JSON, readiness handles the events buffered before it, emits its
    raw event, and throws out of [login]: the client is left ready, the
    events buffered after it are never handled, and the buffer is not
    cleared (it keeps them, and the handled entries without their tag). *)
Theorem replay_aborts_at_malformed (s0 : Client) (es1 es2 : list Inbound)
    (topic : Topic) (payload : string) :
  ready s0 = false ->
  eventsToReplay s0 = [] ->
  microtasks s0 = [] ->
  topic_id topic = "146" ->
  JSON_parse_batch payload = None ->
  Forall (fun e => throws e = false) es1 ->
  let buffered := run (map deliver (es1 ++ Realtime topic payload :: es2)) s0 in
  let live0 := emit connected (set_ready true s0) in
  step Login_ready buffered =
    (runMicrotasks
       (emit (rawRealtime topic payload)
          (set_eventsToReplay
             (map (fun e => tail (entry e)) (es1 ++ [Realtime topic payload])
              ++ map entry es2)
             (handle_all es1 live0))), Some SyntaxError)
  /\ ready (fst (step Login_ready buffered)) = true
  /\ eventsToReplay (fst (step Login_ready buffered)) =
       map (fun e => tail (entry e)) (es1 ++ [Realtime topic payload])
       ++ map entry es2.
Proof.
  intros Hr Hb Hq Ht Hp Hes buffered live0.
  assert (Hbuf : buffered =
            set_eventsToReplay (map entry (es1 ++ Realtime topic payload :: es2)) s0).
  { unfold buffered. rewrite run_buffers by done. by rewrite Hb. }
  assert (Hstep : step Login_ready buffered =
    (runMicrotasks
       (emit (rawRealtime topic payload)
          (set_eventsToReplay
             (map (fun e => tail (entry e)) (es1 ++ [Realtime topic payload])
              ++ map entry es2)
             (handle_all es1 live0))), Some SyntaxError)).
  { unfold step, act, login_ready. rewrite Hbuf.
    change (emit connected (set_ready true
              (set_eventsToReplay (map entry (es1 ++ Realtime topic payload :: es2)) s0)))
      with (set_eventsToReplay (map entry (es1 ++ Realtime topic payload :: es2)) live0).
    cbn [eventsToReplay set_eventsToReplay].
    pose proof (replay_until_throw es1 es2 topic payload []
               (set_eventsToReplay (map entry (es1 ++ Realtime topic payload :: es2))
                  live0)) as Hrep.
    cbn [List.length app] in Hrep. rewrite Hrep by done.
    rewrite handle_all_frame by done. done. }
  split; [done|]. rewrite Hstep. cbn [fst].
  match goal with
  | |- context [runMicrotasks ?x] =>
      destruct (drain_buffer (queue_weight (microtasks x)) x) as [Hdb Hdr];
      fold (runMicrotasks x) in Hdb, Hdr; rewrite Hdb, Hdr
  end.
  simpl. split; [|done]. by apply handle_all_ready.
Qed.

End ReplayAbort.

(** ** Cookies and authentication *)

Lemma setCookies_all (accepts : ToughCookie -> string -> bool)
    (cookies : list CookieJson) :
  Forall (fun c => is_Some (usable accepts c)) cookies ->
  setCookies accepts cookies = (omap (usable accepts) cookies, None).
Proof.
  induction 1 as [|c cs [tu Hc] _ IH]; [done|].
  simpl. unfold usable in *. destruct (toughCookie c) as [t|]; [|done].
  destruct (accepts t (cookie_url t)); [|done].
  rewrite IH. by injection Hc as <-.
Qed.

Lemma setCookies_stops (accepts : ToughCookie -> string -> bool)
    (good rest : list CookieJson) (bad : CookieJson) :
  Forall (fun c => is_Some (usable accepts c)) good ->
  usable accepts bad = None ->
  setCookies accepts (good ++ bad :: rest) =
    (omap (usable accepts) good,
     Some (match cookie_domain bad with Some _ => RequestError | None => TypeError end)).
Proof.
  intros Hgood Hbad. induction Hgood as [|c cs [tu Hc] _ IH].
  - simpl. unfold usable, toughCookie in *.
    destruct (cookie_domain bad); [|done].
    by destruct (accepts _ _).
  - simpl. unfold usable in *. destruct (toughCookie c) as [t|]; [|done].
    destruct (accepts t (cookie_url t)); [|done].
    rewrite IH. by injection Hc as <-.
Qed.

(** X19.  [loadCookiesFromJson] is not atomic.  When every cookie of the
    file has a domain and is accepted by the jar, all are stored, in the
    order of the file, and the count is the number of cookies.  At the
    first cookie without a domain (a [TypeError]) or refused by the jar, the
    load throws: the cookies before it stay stored in the jar, it and the
    cookies after it are not.  A file that cannot be read or parsed stores
    nothing and its error is thrown. *)
Theorem cookies_load_partial (accepts : ToughCookie -> string -> bool) :
  (forall cookies,
     Forall (fun c => is_Some (usable accepts c)) cookies ->
     loadCookiesFromJson accepts (inr cookies) =
       (omap (usable accepts) cookies, inr (List.length cookies)))
  /\ (forall good bad rest,
        Forall (fun c => is_Some (usable accepts c)) good ->
        usable accepts bad = None ->
        loadCookiesFromJson accepts (inr (good ++ bad :: rest)) =
          (omap (usable accepts) good,
           inl (match cookie_domain bad with Some _ => RequestError | None => TypeError end))
        /\ List.length (omap (usable accepts) good) = List.length good)
  /\ (forall e, loadCookiesFromJson accepts (inl e) = ([], inl e)).
Proof.
  assert (Hlen : forall cs, Forall (fun c => is_Some (usable accepts c)) cs ->
            List.length (omap (usable accepts) cs) = List.length cs).
  { induction 1 as [|c cs [tu Hc] _ IH]; [done|].
    change (omap (usable accepts) (c :: cs)) with
      (match usable accepts c with
       | Some y => y :: omap (usable accepts) cs
       | None => omap (usable accepts) cs
       end).
    rewrite Hc. simpl. f_equal. exact IH. }
  repeat split.
  - intros cookies Hall. unfold loadCookiesFromJson.
    rewrite setCookies_all by done. by rewrite Hlen.
  - unfold loadCookiesFromJson. by rewrite setCookies_stops.
  - by apply Hlen.
Qed.

Lemma try_session_ok (env : Env) :
  session_ok env = true ->
  try_session env =
    ([call_access; call_readSession; call_deserialize; call_currentUser], true).
Proof.
  unfold session_ok, try_session. intros H.
  repeat (apply andb_true_iff in H as [H ?]).
  by repeat match goal with Hx : _ = true |- _ => rewrite Hx; clear Hx end.
Qed.

Lemma try_session_fails (env : Env) :
  session_ok env = false -> snd (try_session env) = false.
Proof.
  unfold session_ok, try_session.
  destruct (session_access env), (session_read env), (session_deserialize env);
    simpl; done.
Qed.

Lemma try_session_calls (env : Env) :
  (call_accountLogin ∉ fst (try_session env))
  /\ (call_serialize ∉ fst (try_session env)).
Proof.
  unfold try_session. repeat case_match; simpl; set_solver.
Qed.

Lemma save_session_calls (env : Env) : call_accountLogin ∉ fst (save_session env).
Proof. unfold save_session. case_match; simpl; set_solver. Qed.

Lemma try_cookies_ok (env : Env) : snd (try_cookies env) = cookies_ok env.
Proof.
  unfold try_cookies, cookies_ok.
  destruct (loadCookiesFromJson _ _) as [stored [e|n]]; simpl; [done|].
  by destruct (cookies_currentUser env).
Qed.

Lemma try_cookies_calls (env : Env) : call_accountLogin ∉ fst (try_cookies env).
Proof.
  unfold try_cookies.
  destruct (loadCookiesFromJson _ _) as [stored [e|n]]; simpl; [set_solver|].
  pose proof (save_session_calls env).
  destruct (cookies_currentUser env); simpl; set_solver.
Qed.

(** X20.  With a user name, when the session file is there, is read,
    deserialized and validated by [currentUser()], [login] authenticates by
    the session with these four calls and nothing else: the cookie file is
    not read, the password is not used, whatever they are, and the session
    file is not written. *)
Theorem login_prefers_session (env : Env) (username password : option string) :
  truthy username = true ->
  session_ok env = true ->
  authenticate env username password =
    ([call_access; call_readSession; call_deserialize; call_currentUser],
     inr by_session).
Proof.
  intros Hu Hs. unfold authenticate. rewrite Hu. simpl.
  by rewrite try_session_ok.
Qed.

(** X21.  A failure to save the session is treated in two ways.  After a
    login by cookies it is swallowed: with valid cookies the login succeeds
    whether [serialize] and [writeFile] resolve or not, and the password is
    never sent.  After a login by password it is fatal: although the account
    login and its validation succeeded, [login] throws the error of the
    save. *)
Theorem save_failure_asymmetry (env : Env) (username password : option string) :
  truthy username = true ->
  session_ok env = false ->
  (cookies_ok env = true ->
     snd (authenticate env username password) = inr by_cookies
     /\ (call_accountLogin ∉ fst (authenticate env username password)))
  /\ (forall m,
        cookies_ok env = false ->
        truthy password = true ->
        account_login env = None ->
        login_currentUser env = None ->
        snd (save_session env) = Some m ->
        snd (authenticate env username password) = inl (rethrow m)
        /\ (call_accountLogin ∈ fst (authenticate env username password))).
Proof.
  intros Hu Hs. unfold authenticate. rewrite Hu. simpl.
  pose proof (try_session_fails env Hs) as Hs1.
  pose proof (try_session_calls env) as [Hc1 _].
  destruct (try_session env) as [calls1 ok1]. simpl in *. subst ok1.
  pose proof (try_cookies_ok env) as Hc.
  pose proof (try_cookies_calls env) as Hc2.
  destruct (try_cookies env) as [calls2 ok2]. simpl in *. subst ok2.
  split.
  - intros ->. simpl. split; [done|]. set_solver.
  - intros m -> Hp Hal Hcu Hsave. rewrite Hp.
    unfold try_credentials. rewrite Hal, Hcu.
    destruct (save_session env) as [calls3 r]. simpl in Hsave. subst r.
    simpl. split; [done|]. set_solver.
Qed.

Lemma rethrow_cases (m : string) :
  (includes m "login" || includes m "cookie" || includes m "session" = true
   /\ rethrow m = m)
  \/ (includes m "login" || includes m "cookie" || includes m "session" = false
      /\ rethrow m = ("Unexpected error during initialization: " ++ m)%string).
Proof.
  unfold rethrow.
  destruct (includes m "login" || includes m "cookie" || includes m "session");
    auto.
Qed.

(** X22.  The errors [login] throws while authenticating.  Without a user
    name nothing is called and the message is the wrapped "Username is
    required"; when no method authenticates and there is no password, the
    message is "No valid login method succeeded (session, cookies, or
    credentials)", not wrapped, since it holds the word login; in every
    case the message thrown either holds one of the words login, cookie and
    session, and is the original message, or is the original message after
    the prefix "Unexpected error during initialization: ". *)
Theorem login_errors (env : Env) (username password : option string) :
  (truthy username = false ->
     authenticate env username password =
       ([], inl "Unexpected error during initialization: ❌ Username is required"))
  /\ (truthy username = true -> session_ok env = false -> cookies_ok env = false ->
      truthy password = false ->
      snd (authenticate env username password) = inl no_method)
  /\ (forall msg, snd (authenticate env username password) = inl msg ->
        exists m, rethrow m = msg
          /\ (msg = m \/ msg = ("Unexpected error during initialization: " ++ m)%string)).
Proof.
  repeat split.
  - intros Hu. unfold authenticate. by rewrite Hu.
  - intros Hu Hs Hc Hp. unfold authenticate. rewrite Hu. simpl.
    pose proof (try_session_fails env Hs) as Hs1.
    destruct (try_session env) as [calls1 ok1]. simpl in *. subst ok1.
    pose proof (try_cookies_ok env) as Hc2.
    destruct (try_cookies env) as [calls2 ok2]. simpl in *.
    rewrite Hc2, Hc, Hp. done.
  - intros msg. unfold authenticate.
    assert (Hre : forall m, exists m0, rethrow m0 = rethrow m
               /\ (rethrow m = m0
                   \/ rethrow m = ("Unexpected error during initialization: " ++ m0)%string)).
    { intros m. exists m. split; [done|].
      destruct (rethrow_cases m) as [[_ ->]|[_ ->]]; auto. }
    destruct (truthy username); simpl.
    2:{ intros [= <-]. apply Hre. }
    destruct (try_session env) as [calls1 [|]]; [done|].
    destruct (try_cookies env) as [calls2 [|]]; [done|].
    destruct (truthy password).
    + destruct (try_credentials env) as [calls3 [m|[]]]; [|done].
      intros [= <-]. apply Hre.
    + intros [= <-]. apply Hre.
Qed.

(** X23.  [login] authenticates only after a [currentUser()] call
    succeeded, and exactly under these conditions: by the session when the
    session is valid; else by the cookies when they load and are valid; else
    by the password when there is one and the account login, its validation
    and the saving of the session all succeed.  The account login is called
    only when the session and the cookies both failed and a password was
    given. *)
Theorem login_success_conditions (env : Env) (username password : option string)
    (method : Method) :
  (snd (authenticate env username password) = inr method <->
   truthy username = true
   /\ (method = by_session /\ session_ok env = true
       \/ method = by_cookies /\ session_ok env = false /\ cookies_ok env = true
       \/ method = by_credentials /\ session_ok env = false /\ cookies_ok env = false
          /\ truthy password = true /\ credentials_ok env = true))
  /\ (snd (authenticate env username password) = inr method ->
      session_currentUser env = true \/ cookies_currentUser env = true
      \/ login_currentUser env = None)
  /\ (call_accountLogin ∈ fst (authenticate env username password) ->
      session_ok env = false /\ cookies_ok env = false /\ truthy password = true).
Proof.
  assert (Hcred : forall r, snd (try_credentials env) = r ->
            (exists u, r = inr u) <-> credentials_ok env = true).
  { intros r <-. unfold try_credentials, credentials_ok, save_session.
    destruct (account_login env), (login_currentUser env), (state_serialize env),
      (session_write env); simpl;
      (split; [intros [u Hu]; first [discriminate Hu | reflexivity]
              |intros H; first [discriminate H | by eexists]]). }
  assert (Hmain : snd (authenticate env username password) = inr method <->
   truthy username = true
   /\ (method = by_session /\ session_ok env = true
       \/ method = by_cookies /\ session_ok env = false /\ cookies_ok env = true
       \/ method = by_credentials /\ session_ok env = false /\ cookies_ok env = false
          /\ truthy password = true /\ credentials_ok env = true)).
  { unfold authenticate. destruct (truthy username); simpl; [|naive_solver].
    destruct (session_ok env) eqn:Hs.
    - rewrite try_session_ok by done. simpl. naive_solver.
    - pose proof (try_session_fails env Hs) as Hs1.
      destruct (try_session env) as [calls1 ok1]. simpl in *. subst ok1.
      pose proof (try_cookies_ok env) as Hc.
      destruct (try_cookies env) as [calls2 ok2]. simpl in *. subst ok2.
      destruct (cookies_ok env); simpl; [naive_solver|].
      destruct (truthy password); simpl; [|naive_solver].
      pose proof (Hcred (snd (try_credentials env)) eq_refl) as Hc3.
      destruct (try_credentials env) as [calls3 [m|[]]]; simpl in *.
      + split; [done|]. intros (_ & [?|[?|(? & _ & _ & _ & Hok)]]); naive_solver.
      + assert (credentials_ok env = true) by (apply Hc3; by eexists).
        naive_solver. }
  split; [exact Hmain|]. split.
  - intros Hok. apply Hmain in Hok as (_ & [[_ Hs]|[(_ & _ & Hc)|(_ & _ & _ & _ & Hcr)]]).
    + left. unfold session_ok in Hs. by apply andb_true_iff in Hs as [_ ?].
    + right. left. unfold cookies_ok in Hc. by case_match.
    + right. right. unfold credentials_ok in Hcr.
      apply bool_decide_eq_true_1 in Hcr. naive_solver.
  - unfold authenticate. destruct (truthy username); simpl; [|set_solver].
    destruct (session_ok env) eqn:Hs.
    { rewrite try_session_ok by done. simpl. set_solver. }
    pose proof (try_session_fails env Hs) as Hs1.
    pose proof (try_session_calls env) as [Hn1 _].
    destruct (try_session env) as [calls1 ok1]. simpl in *. subst ok1.
    pose proof (try_cookies_ok env) as Hc.
    pose proof (try_cookies_calls env) as Hn2.
    destruct (try_cookies env) as [calls2 ok2]. simpl in *. subst ok2.
    destruct (cookies_ok env); simpl; [set_solver|].
    destruct (truthy password); simpl; [|set_solver].
    by destruct (try_credentials env) as [calls3 [m|[]]].
Qed.

(** ** The chat load of [login] *)

Lemma load_caches (threads : list ThreadPayload) (s : Client) :
  NoDup (map thread_id threads) ->
  let s1 := foldl (fun acc thread => loadThread thread acc) s threads in
  (exists extra, heap s1 = heap s ++ extra)
  /\ cache_users s1 = cache_users s
  /\ emitted s1 = emitted s
  /\ (forall t, t ∈ threads ->
        exists l : loc,
          cache_chats s1 !! thread_id t = Some l
          /\ heap s1 !! l = Some (Chat_new (thread_id t) t)
          /\ List.length (heap s) <= l
          /\ cache_pendingChats s1 !! thread_id t =
               if pending (Chat_new (thread_id t) t) then Some l
               else cache_pendingChats s !! thread_id t)
  /\ (forall k, k ∉ map thread_id threads ->
        cache_chats s1 !! k = cache_chats s !! k
        /\ cache_pendingChats s1 !! k = cache_pendingChats s !! k).
Proof.
  revert s. induction threads as [|t ts IH]; intros s Hnd; cbn zeta.
  - simpl. split; [exists []; by rewrite app_nil_r|].
    repeat split; try done. intros t Ht. by apply elem_of_nil in Ht.
  - change (foldl (fun acc thread => loadThread thread acc) s (t :: ts))
      with (foldl (fun acc thread => loadThread thread acc) (loadThread t s) ts).
    cbn [map] in *. apply NoDup_cons in Hnd as [Hnew Hnd].
    destruct (IH (loadThread t s) Hnd) as ([extra Hheap] & Hu & He & Hin & Hout).
    cbn zeta in *.
    set (s1 := foldl (fun acc thread => loadThread thread acc) (loadThread t s) ts) in *.
    assert (Hh1 : heap (loadThread t s) = heap s ++ [Chat_new (thread_id t) t]).
    { unfold loadThread. simpl. by case_match. }
    assert (Hc1 : cache_chats (loadThread t s) =
                  <[thread_id t := List.length (heap s)]> (cache_chats s)).
    { unfold loadThread. simpl. by case_match. }
    assert (Hp1 : cache_pendingChats (loadThread t s) =
                  if pending (Chat_new (thread_id t) t)
                  then <[thread_id t := List.length (heap s)]> (cache_pendingChats s)
                  else cache_pendingChats s).
    { unfold loadThread. simpl. by case_match. }
    split; [|split; [|split; [|split]]].
    + exists ([Chat_new (thread_id t) t] ++ extra).
      rewrite Hheap, Hh1. by rewrite <- app_assoc.
    + rewrite Hu. unfold loadThread. simpl.
      destruct (default false (thread_pending t)); reflexivity.
    + rewrite He. unfold loadThread. simpl.
      destruct (default false (thread_pending t)); reflexivity.
    + intros t' Ht'. apply elem_of_cons in Ht' as [->|Ht'].
      * destruct (Hout (thread_id t) Hnew) as [Hc Hp].
        exists (List.length (heap s)). split; [|split; [|split; [lia|]]].
        -- etrans; [exact Hc|]. rewrite Hc1. apply lookup_insert_eq.
        -- rewrite Hheap, Hh1.
           rewrite lookup_app_l by (rewrite length_app; simpl; lia).
           rewrite lookup_app_r by lia. by rewrite Nat.sub_diag.
        -- etrans; [exact Hp|]. rewrite Hp1.
           destruct (pending (Chat_new (thread_id t) t)); [|done].
           apply lookup_insert_eq.
      * destruct (Hin t' Ht') as (l & Hc & Hh & Hl & Hp).
        exists l. split; [done|]. split; [done|].
        split; [rewrite Hh1, length_app in Hl; lia|].
        etrans; [exact Hp|].
        destruct (pending (Chat_new (thread_id t') t')); [done|].
        assert (Hne : thread_id t <> thread_id t').
        { intros Heq. apply Hnew. rewrite Heq.
          apply list_elem_of_fmap. by exists t'. }
        rewrite Hp1. destruct (pending (Chat_new (thread_id t) t)); [|done].
        by rewrite lookup_insert_ne.
    + intros k Hk. apply not_elem_of_cons in Hk as [Hne Hk].
      destruct (Hout k Hk) as [Hc Hp]. split.
      * etrans; [exact Hc|]. rewrite Hc1. by rewrite lookup_insert_ne.
      * etrans; [exact Hp|]. rewrite Hp1.
        destruct (pending (Chat_new (thread_id t) t)); [|done].
        by rewrite lookup_insert_ne.
Qed.

(** X24.  The chat load of [login], on threads of distinct ids: the user
    of the account is cached under its id and [debug] is emitted once; every
    thread is cached in the chats cache as a new chat built from it (also
    when its id was cached before); it is put in the pending-chats cache,
    as the same object, when the built chat is pending, and otherwise the
    pending-chats cache is left as it was for that id: the load never takes
    a chat out of the pending-chats cache.  The other ids of both caches
    are untouched. *)
Theorem login_load_caches (me : User) (threads : list ThreadPayload) (s : Client) :
  NoDup (map thread_id threads) ->
  let s' := login_load me threads s in
  cache_users s' !! user_id me = Some me
  /\ emitted s' = emitted s ++ [debug_logged me]
  /\ (forall t, t ∈ threads ->
        exists l : loc,
          cache_chats s' !! thread_id t = Some l
          /\ heap s' !! l = Some (Chat_new (thread_id t) t)
          /\ List.length (heap s) <= l
          /\ cache_pendingChats s' !! thread_id t =
               if pending (Chat_new (thread_id t) t) then Some l
               else cache_pendingChats s !! thread_id t)
  /\ (forall k, k ∉ map thread_id threads ->
        cache_chats s' !! k = cache_chats s !! k
        /\ cache_pendingChats s' !! k = cache_pendingChats s !! k).
Proof.
  intros Hnd. cbn zeta. unfold login_load.
  set (s0 := emit (debug_logged me) (set_users (<[user_id me := me]> (cache_users s)) s)).
  destruct (load_caches threads s0 Hnd) as ([extra Hheap] & Hu & He & Hin & Hout).
  cbn zeta in *.
  set (s1 := foldl (fun acc thread => loadThread thread acc) s0 threads) in *.
  split; [|split; [|split]].
  - rewrite Hu. simpl. apply lookup_insert_eq.
  - by rewrite He.
  - exact Hin.
  - exact Hout.
Qed.

(** ** The properties on the sample client *)

Lemma fetchChat_cached_unchanged_witness :
  step (Call_fetchChat "340" false) Sample.live = (Sample.live, None).
Proof.
  apply (fetchChat_cached_unchanged Sample.live "340" 0 cb_caller);
    reflexivity.
Defined.

Lemma replace_name_only_witness :
  let d := {| op := "replace"; path := Sample.inboxPath; value := "renamed" |} in
  snd (applyData d Sample.live) = None
  /\ emitted_since Sample.live (fst (applyData d Sample.live)) =
       [chatNameUpdate 0 (Some "A") (Some "B")]
  /\ heap (fst (applyData d Sample.live)) !! 0 =
       Some (Chat_patch Sample.chat340 Sample.renamed).
Proof.
  apply (replace_name_only _ Sample.live "340" 0 Sample.chat340 Sample.renamed);
    first [reflexivity | discriminate].
Defined.

Lemma replace_member_delta_witness :
  filter (fun e => membership_event e = true)
    (emitted_since Sample.live
       (fst (applyData {| op := "replace"; path := Sample.inboxPath; value := "joined" |}
               Sample.live))) = [chatUserAdd 0 Sample.carol]
  /\ filter (fun e => membership_event e = true)
       (emitted_since Sample.live
          (fst (applyData {| op := "replace"; path := Sample.inboxPath; value := "left" |}
                  Sample.live))) = [chatUserRemove 0 Sample.bob].
Proof.
  split.
  - apply (replace_member_delta _ Sample.live "340" 0 Sample.chat340 Sample.joined
             Sample.carol); try reflexivity.
    + vm_compute. set_solver.
    + intros v Hv Hnew. vm_compute in Hv.
      repeat (apply elem_of_cons in Hv as [->|Hv]; [try discriminate; try reflexivity|]).
      by apply elem_of_nil in Hv.
  - apply (replace_member_delta _ Sample.live "340" 0 Sample.chat340 Sample.shrunk
             Sample.bob); try reflexivity.
    + vm_compute. set_solver.
    + intros v Hv Hnew. vm_compute in Hv.
      repeat (apply elem_of_cons in Hv as [->|Hv]; [try discriminate; try reflexivity|]).
      by apply elem_of_nil in Hv.
Defined.

Lemma replace_first_sight_witness :
  let d := {| op := "replace"; path := Sample.newInboxPath; value := "renamed" |} in
  cache_chats (fst (applyData d Sample.live)) !! "341" = Some 1
  /\ heap (fst (applyData d Sample.live)) !! 1 = Some (Chat_new "341" Sample.renamed)
  /\ emitted (fst (applyData d Sample.live)) = emitted Sample.live.
Proof.
  destruct (replace_first_sight
              {| op := "replace"; path := Sample.newInboxPath; value := "renamed" |}
              Sample.live "341" Sample.renamed) as (Heq & _ & Hev);
    try reflexivity.
  cbv zeta. rewrite Heq. cbn [fst]. repeat split; reflexivity.
Defined.









Lemma pending_chats_view_witness :
  pending_in_chats
    (fst (step (Login_load Sample.alice
                  [{| thread_id := "500"; thread_title := None; thread_users := None;
                      admin_user_ids := None; thread_calling := None;
                      thread_pending := Some true |}]) Client_new)).
Proof.
  destruct pending_chats_view as (Hnew & Hstep & _).
  apply Hstep, Hnew.
Defined.
(** ** Further properties on the sample client *)

Lemma ignored_delivery_witness :
  step (Deliver_realtime {| topic_id := "88" |} "{") Sample.live =
    (emit (rawRealtime {| topic_id := "88" |} "{") Sample.live, None).
Proof.
  destruct (ignored_delivery Sample.live {| topic_id := "88" |} "{" eq_refl eq_refl)
    as [Hother _].
  apply Hother. discriminate.
Defined.

Lemma message_add_stores_witness :
  let s' := fst (step (Deliver_realtime Sample.topic146 "say hello") Sample.live) in
  emitted_since Sample.live s' =
    [rawRealtime Sample.topic146 "say hello";
     messageCreate (Message_new "340" Sample.hello)]
  /\ (exists chat', heap s' !! 0 = Some chat'
        /\ chat_messages chat' !! "m2" = Some (Message_new "340" Sample.hello)
        /\ forall k, k <> "m2" ->
             chat_messages chat' !! k = chat_messages Sample.chat340 !! k)
  /\ cache_chats s' = cache_chats Sample.live.
Proof.
  destruct (message_add_stores Sample.live Sample.topic146 "say hello"
              {| op := "add"; path := Sample.itemPath; value := "hello" |}
              "340" 0 Sample.chat340 Sample.hello)
    as (Hevents & Hchat & Hcaches); [reflexivity..|].
  split; [exact Hevents|]. split; [exact Hchat | exact Hcaches].
Defined.

Lemma replace_event_bounds_witness :
  let d := {| op := "replace"; path := Sample.inboxPath; value := "renamed" |} in
  let evs := emitted_since Sample.live (fst (applyData d Sample.live)) in
  List.length evs <= 3
  /\ List.length (filter (fun e => membership_event e = true) evs) <= 1
  /\ filter (fun e => membership_event e = true) evs = [].
Proof.
  destruct (replace_event_bounds
              {| op := "replace"; path := Sample.inboxPath; value := "renamed" |}
              Sample.live "340" 0 Sample.chat340 Sample.renamed)
    as (Hall & Hone & Hsame); [reflexivity..|].
  split; [exact Hall|]. split; [exact Hone|]. apply Hsame. reflexivity.
Defined.


Lemma pending_refresh_witness :
  let d := {| pushCategory := Some "direct_v2_pending"; sourceUserId := None;
              actionParams_id := Some "500" |} in
  let s' := run [Deliver_fbns d; Net_reply 0 (RespThreads [More.pendingThread])]
              Sample.live in
  exists l : loc, cache_pendingChats s' !! "500" = Some l
    /\ emitted_since Sample.live s' = [rawFbns d; pendingRequest l].
Proof.
  assert (Hne : "500" <> "") by discriminate.
  destruct (pending_refresh Sample.live
              {| pushCategory := Some "direct_v2_pending"; sourceUserId := None;
                 actionParams_id := Some "500" |} "500" [More.pendingThread]
              eq_refl eq_refl eq_refl eq_refl eq_refl Hne) as [_ Hmiss].
  destruct (Hmiss eq_refl) as (_ & _ & Hin & _).
  apply Hin. apply elem_of_cons. by left.
Defined.


Lemma fetchChat_miss_then_cached_witness :
  let s' := run [Call_fetchChat "341" false; Net_reply 0 (RespThread More.thread341)]
              Sample.live in
  (exists l : loc, cache_chats s' !! "341" = Some l
                /\ heap s' !! l = Some (Chat_new "341" More.thread341))
  /\ step (Call_fetchChat "341" false) s' = (s', None).
Proof.
  destruct (fetchChat_miss_then_cached Sample.live "341" More.thread341
              eq_refl eq_refl eq_refl) as (_ & _ & Hcached & Hagain & _).
  split; [exact Hcached | exact Hagain].
Defined.

Lemma fetchChat_force_in_place_witness :
  run [Call_fetchChat "340" true; Net_reply 0 (RespThread Sample.renamed)] Sample.live =
    set_heap [Chat_patch Sample.chat340 Sample.renamed] Sample.live.
Proof.
  exact (fetchChat_force_in_place Sample.live "340" 0 Sample.chat340 Sample.renamed
           eq_refl eq_refl eq_refl eq_refl).
Defined.

Lemma fetchUser_miss_then_cached_witness :
  run [Call_fetchUser "3" false; Net_reply 0 (RespUser (Sample.payload_of Sample.carol))]
    (set_users ∅ Sample.live) =
    set_users {[ "3" := Sample.carol ]} Sample.live
  /\ run [Call_fetchUser "carol" false; Net_reply 0 (RespId "3")] Sample.live =
       Sample.live.
Proof.
  split.
  - destruct (fetchUser_miss_then_cached (set_users ∅ Sample.live) "3" eq_refl eq_refl)
      as [Hid _].
    destruct (Hid (Sample.payload_of Sample.carol) eq_refl eq_refl) as [Heq _].
    exact Heq.
  - destruct (fetchUser_miss_then_cached Sample.live "carol" eq_refl eq_refl)
      as [_ Hname].
    destruct (Hname "3" Sample.carol eq_refl eq_refl) as [_ Heq].
    exact Heq.
Defined.

Lemma createChat_replaces_witness :
  let s := set_pendingChats {[ "340" := 0 ]} Sample.live in
  let s' := run [Call_createChat; Net_reply 0 (RespThread Sample.renamed)] s in
  cache_pendingChats s' !! "340" = Some 0
  /\ cache_chats s' !! "340" <> Some 0.
Proof.
  destruct (createChat_replaces (set_pendingChats {[ "340" := 0 ]} Sample.live)
              Sample.renamed eq_refl eq_refl) as [_ Hpending].
  apply Hpending; [reflexivity|]. simpl. lia.
Defined.

Lemma replay_aborts_at_malformed_witness :
  let buffered :=
    run (map deliver [Fbns Sample.broadcast; Realtime Sample.topic146 "{";
                      Realtime Sample.topic146 "rename"]) Sample.loaded in
  ready (fst (step Login_ready buffered)) = true
  /\ eventsToReplay (fst (step Login_ready buffered)) =
       [[VPush Sample.broadcast]; [VTopic Sample.topic146; VStr "{"];
        [VStr "realtime"; VTopic Sample.topic146; VStr "rename"]].
Proof.
  destruct (replay_aborts_at_malformed Sample.loaded [Fbns Sample.broadcast]
              [Realtime Sample.topic146 "rename"] Sample.topic146 "{")
    as (_ & Hready & Hbuffer); [reflexivity..| |].
  - repeat constructor.
  - split; [exact Hready | exact Hbuffer].
Defined.

Lemma cookies_load_partial_witness :
  loadCookiesFromJson More.any_cookie
    (inr ([More.sessionid] ++ More.nodomain :: [More.sessionid])) =
    (omap (usable More.any_cookie) [More.sessionid], inl TypeError).
Proof.
  destruct (cookies_load_partial More.any_cookie) as (_ & Hstops & _).
  destruct (Hstops [More.sessionid] More.nodomain [More.sessionid]) as [Heq _].
  - repeat constructor. by eexists.
  - reflexivity.
  - exact Heq.
Defined.

Lemma login_prefers_session_witness :
  authenticate More.env_session (Some "alice") (Some "secret") =
    ([call_access; call_readSession; call_deserialize; call_currentUser],
     inr by_session).
Proof.
  apply (login_prefers_session More.env_session (Some "alice") (Some "secret"));
    reflexivity.
Defined.

Lemma save_failure_asymmetry_witness :
  snd (authenticate More.env (Some "alice") (Some "secret")) = inr by_cookies
  /\ snd (authenticate More.env_password (Some "alice") (Some "secret")) =
       inl ("Unexpected error during initialization: EACCES: permission denied").
Proof.
  split.
  - destruct (save_failure_asymmetry More.env (Some "alice") (Some "secret")
                eq_refl eq_refl) as [Hcookies _].
    exact (proj1 (Hcookies eq_refl)).
  - destruct (save_failure_asymmetry More.env_password (Some "alice") (Some "secret")
                eq_refl eq_refl) as [_ Hpassword].
    exact (proj1 (Hpassword "EACCES: permission denied"
                    eq_refl eq_refl eq_refl eq_refl eq_refl)).
Defined.

Lemma login_errors_witness :
  authenticate More.env None (Some "secret") =
    ([], inl "Unexpected error during initialization: ❌ Username is required")
  /\ snd (authenticate More.env_password (Some "alice") None) = inl no_method.
Proof.
  split.
  - destruct (login_errors More.env None (Some "secret")) as (Hname & _ & _).
    apply Hname. reflexivity.
  - destruct (login_errors More.env_password (Some "alice") None) as (_ & Hnone & _).
    apply Hnone; reflexivity.
Defined.

Lemma login_success_conditions_witness :
  snd (authenticate More.env (Some "alice") None) = inr by_cookies.
Proof.
  destruct (login_success_conditions More.env (Some "alice") None by_cookies)
    as ([_ Hif] & _ & _).
  apply Hif. split; [reflexivity|]. right. left. repeat split; reflexivity.
Defined.

Lemma login_load_caches_witness :
  let s' := login_load Sample.alice [More.pendingThread; Sample.renamed] Client_new in
  cache_users s' !! "1" = Some Sample.alice
  /\ emitted s' = [debug_logged Sample.alice]
  /\ cache_chats s' !! "777" = None.
Proof.
  destruct (login_load_caches Sample.alice [More.pendingThread; Sample.renamed]
              Client_new) as (Hme & Hdebug & _ & Hother).
  - vm_compute. repeat constructor; set_solver.
  - split; [exact Hme|]. split; [exact Hdebug|].
    destruct (Hother "777") as [Hchats _]; [|exact Hchats].
    vm_compute. set_solver.
Defined.

(** ** The properties of message operations on the second sample *)

#[local] Existing Instance More.util.

Lemma system_item_discarded_witness :
  step (Deliver_realtime Sample.topic146 "system") More.live =
    (emit (rawRealtime Sample.topic146 "system") More.live, None).
Proof.
  apply (system_item_discarded More.live Sample.topic146 "system"
           (More.add Sample.itemPath "joinLog") "340" 0 More.chat340 More.joinLog);
    reflexivity.
Defined.

Lemma message_replace_unknown_witness :
  step (Deliver_realtime Sample.topic146 "edit m9") More.live =
    (emit (rawRealtime Sample.topic146 "edit m9") More.live, None).
Proof.
  apply (message_replace_unknown More.live Sample.topic146 "edit m9"
           {| op := "replace"; path := Sample.itemPath; value := "edited" |}
           "340" 0 More.chat340 More.edited);
    reflexivity.
Defined.

Lemma like_delta_witness :
  let message := Message_patch Sample.m1 More.liked in
  emitted_since More.live
    (fst (step (Deliver_realtime Sample.topic146 "like m1") More.live)) =
    [rawRealtime Sample.topic146 "like m1"; likeAdd Sample.bob message].
Proof.
  destruct (like_delta More.live Sample.topic146 "like m1"
              {| op := "replace"; path := Sample.itemPath; value := "liked" |}
              "340" 0 More.chat340 More.liked Sample.m1 (More.like_of Sample.bob)
              Sample.bob) as [Hadd _]; [reflexivity..|].
  cbv zeta. rewrite Hadd; [reflexivity | simpl; lia | apply elem_of_cons; by left
                          | reflexivity |].
  intros b Hb _. apply elem_of_cons in Hb as [->|Hb]; [reflexivity|].
  by apply elem_of_nil in Hb.
Defined.

Lemma like_not_found_witness :
  let message := Message_patch More.m3 More.unliked in
  let s' := fst (step (Deliver_realtime Sample.topic146 "unlike m3") More.live) in
  rejections s' = [TypeError]
  /\ emitted_since More.live s' = [rawRealtime Sample.topic146 "unlike m3"]
  /\ (heap s' !! 0 ≫= fun chat => chat_messages chat !! "m3") = Some message.
Proof.
  destruct (like_not_found More.live Sample.topic146 "unlike m3"
              {| op := "replace"; path := Sample.itemPath; value := "unliked" |}
              "340" 0 More.chat340 More.unliked More.m3) as [Hless _];
    [reflexivity..|].
  cbv zeta. rewrite Hless; [repeat split; reflexivity | simpl; lia |].
  intros b Hb.
  repeat (apply elem_of_cons in Hb as [->|Hb]; [reflexivity|]).
  by apply elem_of_nil in Hb.
Defined.

Lemma call_transition_witness :
  let d := {| op := "replace"; path := Sample.inboxPath; value := "ringing" |} in
  filter (fun e => call_event e = true)
    (emitted_since More.live (fst (applyData d More.live))) = [callStart 0].
Proof.
  destruct (call_transition
              {| op := "replace"; path := Sample.inboxPath; value := "ringing" |}
              More.live "340" 0 More.chat340 More.ringing) as [Hstart _];
    [reflexivity..|].
  apply Hstart; reflexivity.
Defined.

Lemma admin_add_then_remove_witness :
  let s' := run [Deliver_realtime Sample.topic146 "promote carol";
                 Deliver_realtime Sample.topic146 "demote carol"] More.live in
  emitted_since More.live s' =
    [rawRealtime Sample.topic146 "promote carol"; chatAdminAdd 0 Sample.carol;
     rawRealtime Sample.topic146 "demote carol"; chatAdminRemove 0 Sample.carol]
  /\ exists chat', heap s' !! 0 = Some chat'
       /\ adminUserIDs chat' = ["1"; "3"; "3"].
Proof.
  apply (admin_add_then_remove More.live Sample.topic146 "promote carol" "demote carol"
           (More.add Sample.adminPath "")
           {| op := "remove"; path := Sample.adminPath; value := "" |}
           "340" "3" 0 More.chat340 Sample.carol);
    reflexivity.
Defined.

Lemma concurrent_miss_splits_chat_witness :
  let s' := run [Deliver_realtime Sample.topic146 "two adds";
                 Net_reply 0 (RespThread More.thread341);
                 Net_reply 0 (RespThread More.thread341)] More.live in
  cache_chats s' !! "341" = Some 2
  /\ (heap s' !! 1 ≫= fun chat => chat_messages chat !! "a2") = None
  /\ (heap s' !! 2 ≫= fun chat => chat_messages chat !! "a1") = None
  /\ emitted_since More.live s' =
       [rawRealtime Sample.topic146 "two adds";
        messageCreate (Message_new "341" More.first);
        messageCreate (Message_new "341" More.second)].
Proof.
  destruct (concurrent_miss_splits_chat More.live Sample.topic146 "two adds"
              (More.add More.otherItemPath "first")
              (More.add More.otherItemPath "second") "341" More.first More.second
              More.thread341 More.thread341)
    as (Hcache & Hfirst & Hsecond & Hevents); [reflexivity..|].
  cbv zeta. split; [exact Hcache|].
  split; [etrans; [exact (f_equal (fun o => o ≫= fun chat => chat_messages chat !! "a2") Hfirst)|reflexivity]|].
  split; [etrans; [exact (f_equal (fun o => o ≫= fun chat => chat_messages chat !! "a1") Hsecond)|reflexivity]|].
  exact Hevents.
Defined.
